(** * PeerTube uploader: a model of [upload-multi.py] and its properties

    The script is a sequence of HTTP exchanges driven by a session object
    ([PeerTubeUploader]).  The model keeps the session as a record, threads
    it through a small state-and-exception monad together with the
    observable effects (requests issued, lines printed, files opened, time
    slept), and takes the remote service and the file system as an oracle
    ([World]) whose answer may depend on everything requested before.

    What is taken from the libraries the script calls:
    - [requests]: [raise_for_status] raises [HTTPError] for the statuses
      400 to 599; a transport failure and a body that is not JSON are
      [RequestException]s without a response;
    - [pathlib]: [name], [stem] and [suffix] of a POSIX path;
    - the documents of the remote API are typed: the token is a string, a
      channel has a string name and an integer id;
    - [str.lower] is modelled on ASCII letters, [print] and the sending of
      a request as never failing on the text they are given: this is so
      for ASCII text, and the properties of [bulk_upload], whose file
      names come from the directory, are stated for listings of ASCII
      names ([ascii_names]);
    - CPython closes a file object when the last reference to it goes:
      for the file opened by [upload_video], when its frame is discarded,
      that is on its normal return, or, after an exception, when the
      caller has discarded the exception. *)

From Stdlib Require Import ZArith String Ascii List Bool Lia.
From stdpp Require Import base option list gmap strings.

Local Open Scope string_scope.
Local Open Scope Z_scope.
Local Open Scope list_scope.

(** ** Python values used by the script *)

(** [not x] for [x : Optional[str]]: [None] and the empty string are falsy. *)
Definition truthy (x : option string) : bool :=
  match x with
  | Some s => negb (String.eqb s "")
  | None => false
  end.

(** [x or y] for an optional string [x] and a string [y]. *)
Definition str_or (x : option string) (y : string) : string :=
  match x with
  | Some s => if String.eqb s "" then y else s
  | None => y
  end.

(** [str.lower], on the ASCII letters. *)
Definition lower_ascii (c : ascii) : ascii :=
  let n := nat_of_ascii c in
  if (65 <=? n)%nat && (n <=? 90)%nat then ascii_of_nat (n + 32) else c.

Fixpoint lower (s : string) : string :=
  match s with
  | EmptyString => EmptyString
  | String c s' => String (lower_ascii c) (lower s')
  end.

(** [str.rfind] of one character; [None] stands for Python's [-1]. *)
Fixpoint rfind (c : ascii) (s : string) : option nat :=
  match s with
  | EmptyString => None
  | String a s' =>
      match rfind c s' with
      | Some i => Some (S i)
      | None => if Ascii.eqb a c then Some 0%nat else None
      end
  end.

(** ** pathlib (POSIX flavour) on path strings *)

Fixpoint split_slash (s : string) : list string :=
  match s with
  | EmptyString => [EmptyString]
  | String c s' =>
      if Ascii.eqb c "/" then EmptyString :: split_slash s'
      else match split_slash s' with
           | h :: t => String c h :: t
           | [] => [String c EmptyString]
           end
  end.

(** The components pathlib keeps: empty ones and ["."] are dropped. *)
Definition path_parts (p : string) : list string :=
  List.filter (fun c => negb (String.eqb c "") && negb (String.eqb c "."))
              (split_slash p).

(** [Path(p).name]: the final component, [''] when there is none. *)
Definition path_name (p : string) : string := List.last (path_parts p) "".

(** [Path(p).suffix]:
    [i = name.rfind('.')]; [name[i:]] when [0 < i < len(name) - 1], else ['']. *)
Definition path_suffix (p : string) : string :=
  let name := path_name p in
  match rfind "." name with
  | Some i =>
      if (0 <? i)%nat && (i <? String.length name - 1)%nat
      then substring i (String.length name - i) name
      else ""
  | None => ""
  end.

(** [Path(p).stem]: [name[:i]] under the same condition, else [name]. *)
Definition path_stem (p : string) : string :=
  let name := path_name p in
  match rfind "." name with
  | Some i =>
      if (0 <? i)%nat && (i <? String.length name - 1)%nat
      then substring 0 i name
      else name
  | None => name
  end.

(** ** Documents exchanged with the remote service

    A body that decodes is one of the documents of the API; a field the
    script reads from a document of another shape is a [KeyError]. *)

Record Channel := { name : string; id : Z }.

Inductive Document :=
| OAuthClientDoc (client_id client_secret : string)
| TokenDoc (access_token : string)
| UserDoc (videoChannels : option (list Channel))
| ChannelDoc (channel_id : Z) (displayName : string)
| VideoDoc (video_id : Z) (uuid : string)
| OtherDoc (raw : string).

(** ** HTTP requests and responses *)

Inductive Method := GET | POST.

Record TokenForm := {
  form_client_id : string;
  form_client_secret : string;
  form_grant_type : string;
  form_username : string;
  form_password : string
}.

Record ChannelJson := {
  json_name : string;
  json_displayName : string;
  json_description : option string
}.

Record UploadData := {
  data_channelId : option Z;
  data_name : string;
  data_privacy : Z;
  data_waitTranscoding : bool;
  data_description : option string
}.

(** [files = {'videofile': (name, open(path, 'rb'), 'video/mp4')}] *)
Record UploadFile := {
  file_name : string;
  file_handle : string;
  file_mime : string
}.

Inductive Payload :=
| NoPayload
| Form (f : TokenForm)
| Json (j : ChannelJson)
| Multipart (d : UploadData) (f : UploadFile).

Record Request := {
  method : Method;
  url : string;
  authorization : option string;
  payload : Payload;
  timeout : option Z
}.

Record Response := {
  status_code : Z;
  text : string;
  json : option Document
}.

(** What [requests.get]/[requests.post] gives back: a response, or a
    transport failure (connection error, timeout). *)
Inductive Reply :=
| Replied (r : Response)
| Unreachable.

(** ** Exceptions *)

Inductive exn :=
| HTTPError (response : Response)     (* from [raise_for_status] *)
| ConnectionError                     (* a [RequestException] without response *)
| JSONDecodeError                     (* [requests.exceptions.JSONDecodeError] *)
| KeyError (key : string)
| OSError (path : string)
| Exception (msg : string).

(** [isinstance(e, requests.exceptions.RequestException)] *)
Definition is_RequestException (e : exn) : bool :=
  match e with
  | HTTPError _ | ConnectionError | JSONDecodeError => true
  | _ => false
  end.

(** [e.response] *)
Definition exn_response (e : exn) : option Response :=
  match e with
  | HTTPError r => Some r
  | _ => None
  end.

(** ** The session object and the observable state *)

Record PeerTubeUploader := {
  host : string;
  username : string;
  password : string;
  token : option string;
  default_channel_id : option Z;          (* [self.channel_id] *)
  channels : gmap string Z
}.

(** One constructor per [print] of the script, with the values it shows. *)
Inductive Output :=
| AvailableChannels (chans : gmap string Z)
| CreatedNewChannel (name : string)
| ChannelMightExist (e : exn)
| Uploading (file : string)
| SuccessfullyUploaded (file : string)
| UploadFailed (e : exn)
| ServerResponse (text : string)
| ErrorUploading (file : string) (e : exn).

Record State := {
  self : PeerTubeUploader;
  requests : list Request;        (* issued so far, oldest first *)
  stdout : list Output;           (* printed so far, oldest first *)
  open_files : list string;       (* handles open, oldest first *)
  slept : Z                       (* seconds spent in [time.sleep] *)
}.

(** The environment: the remote service answers a request knowing the
    requests before it; the file system says which files open and what a
    directory lists (as the [str] of each entry's path). *)
Record World := {
  respond : list Request -> Request -> Reply;
  readable : string -> bool;
  listing : string -> option (list string)
}.

(** Field updates of the session and of the state. *)
Definition with_token (t : option string) (u : PeerTubeUploader) : PeerTubeUploader :=
  {| host := host u; username := username u; password := password u;
     token := t; default_channel_id := default_channel_id u;
     channels := channels u |}.

Definition with_channel_id (c : option Z) (u : PeerTubeUploader) : PeerTubeUploader :=
  {| host := host u; username := username u; password := password u;
     token := token u; default_channel_id := c; channels := channels u |}.

Definition with_channels (m : gmap string Z) (u : PeerTubeUploader) : PeerTubeUploader :=
  {| host := host u; username := username u; password := password u;
     token := token u; default_channel_id := default_channel_id u;
     channels := m |}.

Definition with_self (u : PeerTubeUploader) (s : State) : State :=
  {| self := u; requests := requests s; stdout := stdout s;
     open_files := open_files s; slept := slept s |}.

Definition add_request (q : Request) (s : State) : State :=
  {| self := self s; requests := requests s ++ [q]; stdout := stdout s;
     open_files := open_files s; slept := slept s |}.

Definition add_output (o : Output) (s : State) : State :=
  {| self := self s; requests := requests s; stdout := stdout s ++ [o];
     open_files := open_files s; slept := slept s |}.

Definition add_open (path : string) (s : State) : State :=
  {| self := self s; requests := requests s; stdout := stdout s;
     open_files := open_files s ++ [path]; slept := slept s |}.

Definition with_open_files (files : list string) (s : State) : State :=
  {| self := self s; requests := requests s; stdout := stdout s;
     open_files := files; slept := slept s |}.

Definition add_sleep (n : Z) (s : State) : State :=
  {| self := self s; requests := requests s; stdout := stdout s;
     open_files := open_files s; slept := slept s + n |}.

(** ** The monad: state, and a result or a raised exception *)

Definition M (A : Type) : Type := State -> (exn + A) * State.

Definition ret {A} (a : A) : M A := fun s => (inr a, s).
Definition raise {A} (e : exn) : M A := fun s => (inl e, s).
Definition bind {A B} (m : M A) (k : A -> M B) : M B :=
  fun s => match m s with
           | (inr a, s') => k a s'
           | (inl e, s') => (inl e, s')
           end.
(** [try: m except <filter> as e: h e] *)
Definition try_except {A} (m : M A) (catches : exn -> bool) (h : exn -> M A) : M A :=
  fun s => match m s with
           | (inl e, s') => if catches e then h e s' else (inl e, s')
           | r => r
           end.

Notation "x <- m ; k" := (bind m (fun x => k))
  (at level 20, m at level 100, k at level 200, only parsing).
Notation "m >> k" := (bind m (fun _ => k))
  (at level 100, k at level 200, only parsing, right associativity).

Definition get_self : M PeerTubeUploader := fun s => (inr (self s), s).

Definition set_self (u : PeerTubeUploader) : M unit :=
  fun s => (inr tt, with_self u s).

(** [self.token = t], [self.channel_id = c], [self.channels = m] *)
Definition set_token (t : option string) : M unit :=
  u <- get_self;
  set_self (with_token t u).

Definition set_channel_id (c : option Z) : M unit :=
  u <- get_self;
  set_self (with_channel_id c u).

Definition set_channels (m : gmap string Z) : M unit :=
  u <- get_self;
  set_self (with_channels m u).

(** [print], of text the standard output can encode. *)
Definition print (o : Output) : M unit :=
  fun s => (inr tt, add_output o s).

(** [time.sleep(n)] *)
Definition sleep (n : Z) : M unit :=
  fun s => (inr tt, add_sleep n s).

(** [requests.get] / [requests.post]: the request counts as issued
    whatever comes back.  (A request that [requests] cannot even encode,
    as for a file name with characters it refuses, is not modelled.) *)
Definition send (w : World) (req : Request) : M Response :=
  fun s =>
    match respond w (requests s) req with
    | Replied r => (inr r, add_request req s)
    | Unreachable => (inl ConnectionError, add_request req s)
    end.

(** [response.raise_for_status()]: raises for 4xx and 5xx. *)
Definition is_error_status (st : Z) : bool := (400 <=? st) && (st <? 600).

Definition raise_for_status (r : Response) : M unit :=
  if is_error_status (status_code r) then raise (HTTPError r) else ret tt.

(** [response.json()] *)
Definition response_json (r : Response) : M Document :=
  match json r with
  | Some d => ret d
  | None => raise JSONDecodeError
  end.

(** [open(path, 'rb')] *)
Definition open_rb (w : World) (path : string) : M string :=
  fun s =>
    if readable w path then (inr path, add_open path s)
    else (inl (OSError path), s).

(** The files open at this point. *)
Definition get_open_files : M (list string) :=
  fun s => (inr (open_files s), s).

(** A frame that opened files is discarded: the file objects it alone
    held are closed by the runtime, and the open files are again [kept],
    those open before the frame opened any. *)
Definition reclaim (kept : list string) : M unit :=
  fun s => (inr tt, with_open_files kept s).

(** [Path(video_dir).iterdir()] *)
Definition iterdir (w : World) (dir : string) : M (list string) :=
  match listing w dir with
  | Some l => ret l
  | None => raise (OSError dir)
  end.

(** ** The uploader *)

(** [str.rstrip('/')] *)
Fixpoint rstrip_slash (s : string) : string :=
  match s with
  | EmptyString => EmptyString
  | String c s' =>
      match rstrip_slash s' with
      | EmptyString => if Ascii.eqb c "/" then EmptyString else String c EmptyString
      | t => String c t
      end
  end.

(** [PeerTubeUploader.__init__] *)
Definition init (host username password : string) : PeerTubeUploader :=
  {| host := rstrip_slash host; username := username; password := password;
     token := None; default_channel_id := None; channels := ∅ |}.

(** [f'Bearer {self.token}'] *)
Definition bearer (t : option string) : string :=
  "Bearer " +:+ match t with Some x => x | None => "None" end.

(** [doc[key]] for the keys the script reads. *)
Definition getitem_client_id (d : Document) : M string :=
  match d with
  | OAuthClientDoc i _ => ret i
  | _ => raise (KeyError "client_id")
  end.

Definition getitem_client_secret (d : Document) : M string :=
  match d with
  | OAuthClientDoc _ k => ret k
  | _ => raise (KeyError "client_secret")
  end.

Definition getitem_access_token (d : Document) : M string :=
  match d with
  | TokenDoc t => ret t
  | _ => raise (KeyError "access_token")
  end.

Definition getitem_id (d : Document) : M Z :=
  match d with
  | ChannelDoc i _ => ret i
  | _ => raise (KeyError "id")
  end.

(** [user_data['videoChannels']] when the key is there. *)
Definition get_videoChannels (d : Document) : option (list Channel) :=
  match d with
  | UserDoc v => v
  | _ => None
  end.

(** [{channel['name']: channel['id'] for channel in l}]: a later entry
    replaces an earlier one of the same name. *)
Definition channel_dict (l : list Channel) : gmap string Z :=
  fold_left (fun m c => <[name c := id c]> m) l ∅.

Definition client_request (u : PeerTubeUploader) : Request :=
  {| method := GET; url := host u +:+ "/api/v1/oauth-clients/local";
     authorization := None; payload := NoPayload; timeout := None |}.

Definition token_request (u : PeerTubeUploader) (cid csecret : string) : Request :=
  {| method := POST; url := host u +:+ "/api/v1/users/token";
     authorization := None;
     payload := Form {| form_client_id := cid; form_client_secret := csecret;
                        form_grant_type := "password";
                        form_username := username u;
                        form_password := password u |};
     timeout := None |}.

Definition me_request (u : PeerTubeUploader) : Request :=
  {| method := GET; url := host u +:+ "/api/v1/users/me";
     authorization := Some (bearer (token u)); payload := NoPayload;
     timeout := None |}.

(** [PeerTubeUploader.login] *)
Definition login (w : World) : M unit :=
  u <- get_self;
  client_response <- send w (client_request u);
  raise_for_status client_response >>
  client_data <- response_json client_response;
  cid <- getitem_client_id client_data;
  csecret <- getitem_client_secret client_data;
  response <- send w (token_request u cid csecret);
  raise_for_status response >>
  token_doc <- response_json response;
  tok <- getitem_access_token token_doc;
  set_token (Some tok) >>
  u <- get_self;
  response <- send w (me_request u);
  raise_for_status response >>
  user_data <- response_json response;
  match get_videoChannels user_data with
  | Some (first :: others) =>
      set_channel_id (Some (id first)) >>
      set_channels (channel_dict (first :: others)) >>
      u <- get_self;
      print (AvailableChannels (channels u))
  | _ => raise (Exception "No video channels found")
  end.

Definition channel_request (u : PeerTubeUploader) (name : string)
    (display_name description : option string) : Request :=
  {| method := POST; url := host u +:+ "/api/v1/video-channels";
     authorization := Some (bearer (token u));
     payload := Json {| json_name := name;
                        json_displayName := str_or display_name name;
                        json_description :=
                          if truthy description then description else None |};
     timeout := None |}.

Definition is_HTTPError (e : exn) : bool :=
  match e with HTTPError _ => true | _ => false end.

(** [e.response.status_code], for an exception that carries a response. *)
Definition exn_status (e : exn) : option Z :=
  status_code <$> exn_response e.

(** [PeerTubeUploader.create_channel]; [None] is Python's implicit
    [return None]. *)
Definition create_channel (w : World) (name : string)
    (display_name description : option string) : M (option Document) :=
  u <- get_self;
  (if truthy (token u) then ret tt else login w) >>
  u <- get_self;
  try_except
    (response <- send w (channel_request u name display_name description);
     raise_for_status response >>
     channel_data <- response_json response;
     cid <- getitem_id channel_data;
     u <- get_self;
     set_channels (<[name := cid]> (channels u)) >>
     print (CreatedNewChannel name) >>
     ret (Some channel_data))
    is_HTTPError
    (fun e =>
       if bool_decide (exn_status e = Some 409)
       then print (ChannelMightExist e) >> ret None
       else raise e).

(** [self.channels.get(channel_name, self.channel_id) if channel_name
     else self.channel_id] *)
Definition select_channel (u : PeerTubeUploader) (channel_name : option string)
    : option Z :=
  match channel_name with
  | Some n =>
      if truthy channel_name
      then match channels u !! n with
           | Some c => Some c
           | None => default_channel_id u
           end
      else default_channel_id u
  | None => default_channel_id u
  end.

Definition upload_request (u : PeerTubeUploader) (video_path : string)
    (title description : option string) (privacy : Z)
    (channel_name : option string) (wait_transcoding : bool)
    (handle : string) : Request :=
  {| method := POST; url := host u +:+ "/api/v1/videos/upload";
     authorization := Some (bearer (token u));
     payload :=
       Multipart
         {| data_channelId := select_channel u channel_name;
            data_name := str_or title (path_stem video_path);
            data_privacy := privacy;
            data_waitTranscoding := wait_transcoding;
            data_description :=
              if truthy description then description else None |}
         {| file_name := path_name video_path; file_handle := handle;
            file_mime := "video/mp4" |};
     timeout := Some 600 |}.

Definition msg_415 : string :=
  "Video format not supported. Please use MP4 format with H.264 codec.".
Definition msg_413 : string :=
  "Video file too large. Please check your quota.".
Definition msg_422 : string :=
  "Video file unreadable. Please check the file.".

(** [PeerTubeUploader.upload_video] *)
Definition upload_video (w : World) (video_path : string)
    (title description : option string) (privacy : Z)
    (channel_name : option string) (wait_transcoding : bool) : M Document :=
  u <- get_self;
  (if truthy (token u) then ret tt else login w) >>
  u <- get_self;
  kept <- get_open_files;
  handle <- open_rb w video_path;
  print (Uploading (path_name video_path)) >>
  result <-
    try_except
      (response <- send w (upload_request u video_path title description
                                          privacy channel_name
                                          wait_transcoding handle);
       (if status_code response =? 415 then raise (Exception msg_415)
        else if status_code response =? 413 then raise (Exception msg_413)
        else if status_code response =? 422 then raise (Exception msg_422)
        else ret tt) >>
       raise_for_status response >>
       print (SuccessfullyUploaded (path_name video_path)) >>
       response_json response)
      is_RequestException
      (fun e =>
         print (UploadFailed e) >>
         (match exn_response e with
          | Some r => print (ServerResponse (text r))
          | None => ret tt
          end) >>
         raise e);
  (* [return]: the frame goes, and with it the file it opened; an
     exception leaves above, with the frame still held by its traceback *)
  reclaim kept >>
  ret result.

(** [file_path.suffix.lower() in {'.mp4', '.webm', '.mkv'}] *)
Definition is_video (file_path : string) : bool :=
  let ext := lower (path_suffix file_path) in
  String.eqb ext ".mp4" || String.eqb ext ".webm" || String.eqb ext ".mkv".

(** The [for] loop of [bulk_upload], with [results] as it stands. *)
Fixpoint bulk_loop (w : World) (entries : list string) (privacy : Z)
    (channel_name : option string) (results : list Document)
    : M (list Document) :=
  match entries with
  | [] => ret results
  | file_path :: rest =>
      if is_video file_path then
        kept <- get_open_files;
        results' <-
          try_except
            (result <- upload_video w file_path None None privacy
                                    channel_name true;
             sleep 2 >>
             ret (results ++ [result]))
            (fun _ => true)
            (fun e =>
               print (ErrorUploading (path_name file_path) e) >>
               (* end of the [except] block: [e] is deleted, and with it
                  the frame of [upload_video] and the file it opened *)
               reclaim kept >>
               ret results);
        bulk_loop w rest privacy channel_name results'
      else bulk_loop w rest privacy channel_name results
  end.

(** [PeerTubeUploader.bulk_upload] *)
Definition bulk_upload (w : World) (video_dir : string) (privacy : Z)
    (channel_name : option string) : M (list Document) :=
  entries <- iterdir w video_dir;
  bulk_loop w entries privacy channel_name [].

(** ** Notions used to state the properties *)

(** The three exchanges of an authentication all answered with a success
    status and a document of the expected shape; [profile] is what the
    profile fetch returned. *)
Inductive auth_exchange (w : World) (s : State)
    (cid csecret tok : string) (profile : Document) : Prop :=
| AuthExchange (r1 r2 r3 : Response)
    (Hclient : respond w (requests s) (client_request (self s)) = Replied r1)
    (Hclient_status : is_error_status (status_code r1) = false)
    (Hclient_doc : json r1 = Some (OAuthClientDoc cid csecret))
    (Htoken : respond w (requests s ++ [client_request (self s)])
                      (token_request (self s) cid csecret) = Replied r2)
    (Htoken_status : is_error_status (status_code r2) = false)
    (Htoken_doc : json r2 = Some (TokenDoc tok))
    (Hme : respond w (requests s ++ [client_request (self s);
                                     token_request (self s) cid csecret])
                   (me_request (with_token (Some tok) (self s))) = Replied r3)
    (Hme_status : is_error_status (status_code r3) = false)
    (Hme_doc : json r3 = Some profile).

(** The state once the token is stored and the profile has been fetched. *)
Definition token_stored (s : State) (cid csecret tok : string) : State :=
  {| self := with_token (Some tok) (self s);
     requests := requests s ++ [client_request (self s);
                                token_request (self s) cid csecret;
                                me_request (with_token (Some tok) (self s))];
     stdout := stdout s; open_files := open_files s; slept := slept s |}.

(** The state a successful [login] leaves. *)
Definition logged_in (s : State) (cid csecret tok : string)
    (chans : list Channel) : State :=
  {| self := {| host := host (self s); username := username (self s);
                password := password (self s); token := Some tok;
                default_channel_id := id <$> head chans;
                channels := channel_dict chans |};
     requests := requests (token_stored s cid csecret tok);
     stdout := stdout s ++ [AvailableChannels (channel_dict chans)];
     open_files := open_files s; slept := slept s |}.

(** [s1] is the state in which an operation called on [s] gets past its
    opening [if not self.token: self.login()]. *)
Definition authenticated (w : World) (s s1 : State) : Prop :=
  if truthy (token (self s)) then s1 = s else login w s = (inr tt, s1).

(** The requests of an authentication: no payload, or the token form. *)
Definition is_auth_request (q : Request) : bool :=
  match payload q with
  | NoPayload | Form _ => true
  | _ => false
  end.

(** What [upload_video] does once past authentication, when the file
    opens, by the reply to its request [q]; [s1] is the state before the
    file is opened, [s2] the state when the request has been issued. *)
Definition upload_outcome (file path : string) (q : Request) (reply : Reply)
    (s1 : State) : (exn + Document) * State :=
  let s2 := add_request q (add_output (Uploading file) (add_open path s1)) in
  match reply with
  | Unreachable =>
      (inl ConnectionError, add_output (UploadFailed ConnectionError) s2)
  | Replied r =>
      if status_code r =? 415 then (inl (Exception msg_415), s2)
      else if status_code r =? 413 then (inl (Exception msg_413), s2)
      else if status_code r =? 422 then (inl (Exception msg_422), s2)
      else if is_error_status (status_code r) then
        (inl (HTTPError r),
         add_output (ServerResponse (text r))
                    (add_output (UploadFailed (HTTPError r)) s2))
      else match json r with
           | Some doc =>
               (inr doc,
                with_open_files (open_files s1)
                  (add_output (SuccessfullyUploaded file) s2))
           | None =>
               (inl JSONDecodeError,
                add_output (UploadFailed JSONDecodeError)
                           (add_output (SuccessfullyUploaded file) s2))
           end
  end.

(** The state in which [bulk_upload] goes on to the next file: after a
    success it has paused; after a failure it has printed the report and
    the files open are those open before the attempt, [s] being the state
    before the attempt and [s1] the one [upload_video] left. *)
Definition after_attempt (file : string) (outcome : exn + Document)
    (s s1 : State) : State :=
  match outcome with
  | inr _ => add_sleep 2 s1
  | inl e =>
      with_open_files (open_files s)
                      (add_output (ErrorUploading (path_name file) e) s1)
  end.

(** Uploading the given files one after the other, as the spec words the
    bulk publisher: each file is passed to [upload_video] with the supplied
    privacy and channel and with wait-for-transcoding requested; a success
    is followed by a pause of 2, a failure is reported ([after_attempt]).
    The outcome of each file is recorded next to it. *)
Fixpoint attempts (w : World) (files : list string) (privacy : Z)
    (channel_name : option string) (s : State)
    : list (string * (exn + Document)) * State :=
  match files with
  | [] => ([], s)
  | file :: rest =>
      let (outcome, s1) :=
        upload_video w file None None privacy channel_name true s in
      let s2 := after_attempt file outcome s s1 in
      let (outcomes, s') := attempts w rest privacy channel_name s2 in
      ((file, outcome) :: outcomes, s')
  end.

(** The result documents of the attempts that succeeded, in order. *)
Fixpoint successes (outcomes : list (string * (exn + Document)))
    : list Document :=
  match outcomes with
  | [] => []
  | (_, inr doc) :: rest => doc :: successes rest
  | (_, inl _) :: rest => successes rest
  end.

(** A string of ASCII characters only. *)
Definition is_ascii (s : string) : bool :=
  forallb (fun c => (nat_of_ascii c <? 128)%nat) (list_ascii_of_string s).

(** The listed entries are ASCII paths: [str.lower] is [lower] on their
    names, and [print] and [requests] can encode them. *)
Definition ascii_names (entries : list string) : Prop :=
  forallb is_ascii entries = true.

(** An upload request for [path] that asks to wait for transcoding. *)
Definition uploads_waiting (path : string) (q : Request) : Prop :=
  match payload q with
  | Multipart d f => data_waitTranscoding d = true /\ file_handle f = path
  | _ => False
  end.

(** ** A sample service, for concrete runs

    The service hands out the client ["client"]/["secret"] and the token
    ["tok"], returns [profile] for the user, answers every channel
    creation with [create] and an upload by the name of the file. *)

Definition reply_ok (d : Document) : Reply :=
  Replied {| status_code := 200; text := "OK"; json := Some d |}.

Definition reply_status (st : Z) (body : string) : Reply :=
  Replied {| status_code := st; text := body; json := None |}.

Definition sample_world (profile : Document) (create : Reply)
    (upload : string -> Reply) (files : list string) : World :=
  {| respond := fun _ q =>
       match payload q with
       | NoPayload =>
           match authorization q with
           | None => reply_ok (OAuthClientDoc "client" "secret")
           | Some _ => reply_ok profile
           end
       | Form _ => reply_ok (TokenDoc "tok")
       | Json _ => create
       | Multipart _ f => upload (file_name f)
       end;
     readable := fun _ => true;
     listing := fun _ => Some files |}.

Definition two_channels : list Channel :=
  [ {| name := "main"; id := 1 |}; {| name := "news"; id := 2 |} ].

(** Uploads succeed, except [c.MKV], which is over quota. *)
Definition sample_upload (file : string) : Reply :=
  if String.eqb file "c.MKV" then reply_status 413 "quota exceeded"
  else reply_ok (VideoDoc 10 file).

Definition conflict : Response :=
  {| status_code := 409; text := "name taken";
     json := Some (ChannelDoc 2 "News") |}.

Definition sample_files : list string :=
  ["videos/a.mp4"; "videos/b.txt"; "videos/c.MKV"; "videos/d.webm"].

(** A service whose user owns two channels and refuses to create more. *)
Definition w_sample : World :=
  sample_world (UserDoc (Some two_channels)) (Replied conflict)
               sample_upload sample_files.

(** The same service for a user who owns no channel. *)
Definition w_no_channel : World :=
  sample_world (UserDoc (Some [])) (Replied conflict)
               sample_upload sample_files.

(** A service that fails channel creation and uploads with status 500. *)
Definition server_error : Response :=
  {| status_code := 500; text := "internal error"; json := None |}.

Definition w_broken : World :=
  sample_world (UserDoc (Some two_channels)) (Replied server_error)
               (fun _ => Replied server_error) sample_files.

(** A session just constructed. *)
Definition fresh : State :=
  {| self := init "https://peertube.example/" "user" "password";
     requests := []; stdout := []; open_files := []; slept := 0 |}.

(** ** Further notions *)

(** [n] slashes. *)
Fixpoint slashes (n : nat) : string :=
  match n with
  | O => EmptyString
  | S n' => String "/" (slashes n')
  end.

(** [s.endswith('/')] *)
Fixpoint ends_with_slash (s : string) : bool :=
  match s with
  | EmptyString => false
  | String c EmptyString => Ascii.eqb c "/"
  | String _ s' => ends_with_slash s'
  end.

(** The state of a session before anything has happened. *)
Definition start (u : PeerTubeUploader) : State :=
  {| self := u; requests := []; stdout := []; open_files := []; slept := 0 |}.

(** The per-file report of [bulk_upload]. *)
Definition is_error_report (o : Output) : bool :=
  match o with
  | ErrorUploading _ _ => true
  | _ => false
  end.

(** A service that cannot be reached. *)
Definition w_unreachable : World :=
  {| respond := fun _ _ => Unreachable;
     readable := fun _ => true;
     listing := fun _ => Some sample_files |}.

(** A profile in which two channels share a name. *)
Definition twice_main : list Channel :=
  [ {| name := "main"; id := 1 |}; {| name := "news"; id := 2 |};
    {| name := "main"; id := 3 |} ].

(** What [create_channel] does once past authentication, by the reply to
    its request [q]. *)
Definition create_outcome (name : string) (q : Request) (reply : Reply)
    (s1 : State) : (exn + option Document) * State :=
  let s2 := add_request q s1 in
  match reply with
  | Unreachable => (inl ConnectionError, s2)
  | Replied r =>
      if is_error_status (status_code r) then
        if status_code r =? 409
        then (inr None, add_output (ChannelMightExist (HTTPError r)) s2)
        else (inl (HTTPError r), s2)
      else match json r with
           | None => (inl JSONDecodeError, s2)
           | Some (ChannelDoc i label) =>
               (inr (Some (ChannelDoc i label)),
                add_output (CreatedNewChannel name)
                  (with_self (with_channels (<[name := i]> (channels (self s1)))
                                            (self s1)) s2))
           | Some _ => (inl (KeyError "id"), s2)
           end
  end.

(** A service that creates the channel asked for, with id 3. *)
Definition w_creating : World :=
  sample_world (UserDoc (Some two_channels)) (reply_ok (ChannelDoc 3 "Tests"))
               sample_upload sample_files.

(** A service whose upload endpoint answers 200 with a page that is not
    JSON. *)
Definition w_html : World :=
  sample_world (UserDoc (Some two_channels)) (Replied conflict)
               (fun _ => reply_status 200 "<html>") sample_files.

(** A service on which no file can be opened. *)
Definition w_locked : World :=
  {| respond := respond w_sample;
     readable := fun _ => false;
     listing := listing w_sample |}.

(** A session that already holds a token. *)
Definition signed_in : State :=
  with_self (with_token (Some "tok") (self fresh)) fresh.

(** The number of per-file error reports among printed lines. *)
Definition count_reports (out : list Output) : nat :=
  length (List.filter is_error_report out).

(** A service that hands out an empty access token. *)
Definition w_empty_token : World :=
  {| respond := fun _ q =>
       match payload q with
       | NoPayload =>
           match authorization q with
           | None => reply_ok (OAuthClientDoc "client" "secret")
           | Some _ => reply_ok (UserDoc (Some two_channels))
           end
       | Form _ => reply_ok (TokenDoc "")
       | _ => Replied server_error
       end;
     readable := fun _ => true;
     listing := fun _ => Some sample_files |}.

(** A directory without video files, and one that cannot be listed. *)
Definition w_documents : World :=
  sample_world (UserDoc (Some two_channels)) (Replied conflict) sample_upload
               ["docs/readme.txt"; "docs/.mp4"; "docs/notes"].


(** A service that refuses the credentials at the token exchange. *)
Definition unauthorized : Response :=
  {| status_code := 401; text := "invalid credentials"; json := None |}.

Definition w_wrong_password : World :=
  {| respond := fun _ q =>
       match payload q with
       | NoPayload => reply_ok (OAuthClientDoc "client" "secret")
       | _ => Replied unauthorized
       end;
     readable := fun _ => true;
     listing := fun _ => Some sample_files |}.

(** ** Running the monad *)

Ltac run :=
  cbv [bind ret raise try_except get_self set_self set_token set_channel_id
       set_channels print sleep send raise_for_status response_json open_rb
       get_open_files reclaim iterdir getitem_client_id getitem_client_secret getitem_access_token
       getitem_id].

Ltac norm_state :=
  cbv [add_request add_output add_open add_sleep with_self with_open_files
       token_stored logged_in];
  simpl; rewrite <- ?app_assoc; simpl.

(** Enter an operation whose first statement is
    [if not self.token: self.login()], given how that statement went. *)
Ltac enter H :=
  unfold authenticated in H; run; simpl;
  match type of H with
  | context [truthy ?t] =>
      destruct (truthy t) eqn:?; [subst | rewrite H]; simpl
  end.

Lemma app_two {A} (l : list A) (a b : A) : (l ++ [a]) ++ [b] = l ++ [a; b].
Proof. by rewrite <- app_assoc. Qed.

(** ** [login] *)

Lemma login_no_channels w s cid csecret tok profile :
  auth_exchange w s cid csecret tok profile ->
  get_videoChannels profile = None \/ get_videoChannels profile = Some [] ->
  login w s = (inl (Exception "No video channels found"),
               token_stored s cid csecret tok).
Proof.
  intros [r1 r2 r3 H1 S1 D1 H2 S2 D2 H3 S3 D3] Hnone.
  unfold login. run. simpl.
  rewrite H1, S1, D1. simpl. rewrite H2, S2, D2. simpl.
  rewrite app_two in *. rewrite H3, S3, D3.
  destruct Hnone as [-> | ->]; norm_state; reflexivity.
Qed.

Lemma login_channels w s cid csecret tok profile first others :
  auth_exchange w s cid csecret tok profile ->
  get_videoChannels profile = Some (first :: others) ->
  login w s = (inr tt, logged_in s cid csecret tok (first :: others)).
Proof.
  intros [r1 r2 r3 H1 S1 D1 H2 S2 D2 H3 S3 D3] Hsome.
  unfold login. run. simpl.
  rewrite H1, S1, D1. simpl. rewrite H2, S2, D2. simpl.
  rewrite app_two in *. rewrite H3, S3, D3, Hsome.
  norm_state. reflexivity.
Qed.

Lemma login_inv w s s1 :
  login w s = (inr tt, s1) ->
  exists cid csecret tok profile first others,
    auth_exchange w s cid csecret tok profile /\
    get_videoChannels profile = Some (first :: others) /\
    s1 = logged_in s cid csecret tok (first :: others).
Proof.
  unfold login. run. simpl. intros H.
  destruct (respond w (requests s) (client_request (self s)))
    as [r1|] eqn:H1; [|discriminate].
  destruct (is_error_status (status_code r1)) eqn:S1; [discriminate|].
  destruct (json r1) as [[cid csecret| | | | |]|] eqn:D1; try discriminate.
  simpl in H.
  destruct (respond w (requests s ++ [client_request (self s)])
                    (token_request (self s) cid csecret))
    as [r2|] eqn:H2; [|discriminate].
  destruct (is_error_status (status_code r2)) eqn:S2; [discriminate|].
  destruct (json r2) as [[| tok | | | |]|] eqn:D2; try discriminate.
  simpl in H. rewrite app_two in H.
  destruct (respond w _ (me_request (with_token (Some tok) (self s))))
    as [r3|] eqn:H3; [|discriminate].
  destruct (is_error_status (status_code r3)) eqn:S3; [discriminate|].
  destruct (json r3) as [profile|] eqn:D3; [|discriminate].
  destruct (get_videoChannels profile) as [[|first others]|] eqn:Hv;
    try discriminate.
  exists cid, csecret, tok, profile, first, others.
  split; [by econstructor|]. split; [done|].
  revert H. norm_state. intros [= <-]. reflexivity.
Qed.

(** Whatever its outcome, [login] issues authentication requests only, at
    least one, only adds to what is printed, and touches neither the open
    files nor the clock. *)
Lemma login_effects w s r s1 :
  login w s = (r, s1) ->
  exists l o, requests s1 = requests s ++ l /\ l <> [] /\
              forallb is_auth_request l = true /\
              stdout s1 = stdout s ++ o /\
              open_files s1 = open_files s /\ slept s1 = slept s.
Proof.
  unfold login. run. simpl. intros H.
  repeat (case_match; simplify_eq; simpl in *);
    norm_state; eexists _, _; (split; [reflexivity|]);
    repeat split; try done;
    first [ reflexivity | symmetry; apply app_nil_r ].
Qed.

(** ** Past the opening authentication *)

Lemma authenticated_truthy w s :
  truthy (token (self s)) = true -> authenticated w s s.
Proof. unfold authenticated. by intros ->. Qed.

Lemma authenticated_login w s s1 :
  truthy (token (self s)) = false ->
  login w s = (inr tt, s1) -> authenticated w s s1.
Proof. unfold authenticated. by intros ->. Qed.

(** Authentication on demand leaves the open files and the clock alone. *)
Lemma authenticated_effects w s s1 :
  authenticated w s s1 ->
  open_files s1 = open_files s /\ slept s1 = slept s.
Proof.
  unfold authenticated. destruct (truthy (token (self s))).
  - by intros ->.
  - intros H. apply login_effects in H as (l & o & _ & _ & _ & _ & Ho & Hs).
    done.
Qed.

(** ** [create_channel] *)

Lemma create_channel_error w s s1 name dn d r :
  authenticated w s s1 ->
  respond w (requests s1) (channel_request (self s1) name dn d) = Replied r ->
  is_error_status (status_code r) = true ->
  create_channel w name dn d s =
    if status_code r =? 409
    then (inr None,
          add_output (ChannelMightExist (HTTPError r))
                     (add_request (channel_request (self s1) name dn d) s1))
    else (inl (HTTPError r),
          add_request (channel_request (self s1) name dn d) s1).
Proof.
  intros Ha Hr Hs. unfold create_channel.
  enter Ha; rewrite Hr, Hs; simpl; unfold exn_status; simpl;
    case_bool_decide as Hd; destruct (Z.eqb_spec (status_code r) 409);
    try reflexivity; exfalso; simplify_eq; auto with congruence.
Qed.

Lemma create_channel_requests w s s1 name dn d :
  authenticated w s s1 ->
  requests (snd (create_channel w name dn d s)) =
  requests s1 ++ [channel_request (self s1) name dn d].
Proof.
  intros Ha. unfold create_channel.
  enter Ha; repeat (case_match; simplify_eq; simpl in *); reflexivity.
Qed.

Lemma create_channel_login_fails w s e s1 name dn d :
  truthy (token (self s)) = false ->
  login w s = (inl e, s1) ->
  create_channel w name dn d s = (inl e, s1).
Proof. intros Ht Hl. unfold create_channel. run. simpl. by rewrite Ht, Hl. Qed.

(** ** [upload_video] *)

Lemma upload_video_run w s s1 path t d p ch wt :
  authenticated w s s1 ->
  readable w path = true ->
  upload_video w path t d p ch wt s =
  upload_outcome (path_name path) path
    (upload_request (self s1) path t d p ch wt path)
    (respond w (requests s1) (upload_request (self s1) path t d p ch wt path))
    s1.
Proof.
  intros Ha Hrd. unfold upload_video, upload_outcome.
  enter Ha; rewrite Hrd; simpl;
    repeat (case_match; simplify_eq; simpl in * );
    try reflexivity; try congruence.
Qed.

Lemma upload_video_unreadable w s s1 path t d p ch wt :
  authenticated w s s1 ->
  readable w path = false ->
  upload_video w path t d p ch wt s = (inl (OSError path), s1).
Proof.
  intros Ha Hrd. unfold upload_video. enter Ha; by rewrite Hrd.
Qed.

Lemma upload_video_login_fails w s e s1 path t d p ch wt :
  truthy (token (self s)) = false ->
  login w s = (inl e, s1) ->
  upload_video w path t d p ch wt s = (inl e, s1).
Proof. intros Ht Hl. unfold upload_video. run. simpl. by rewrite Ht, Hl. Qed.

Lemma upload_outcome_requests file path q reply s1 :
  requests (snd (upload_outcome file path q reply s1)) = requests s1 ++ [q].
Proof.
  unfold upload_outcome. repeat case_match; reflexivity.
Qed.

(** The file opened is still open when [upload_video] raises, and is not
    when it returns. *)
Lemma upload_outcome_open_files file path q reply s1 :
  open_files (snd (upload_outcome file path q reply s1)) =
  match fst (upload_outcome file path q reply s1) with
  | inl _ => open_files s1 ++ [path]
  | inr _ => open_files s1
  end.
Proof.
  unfold upload_outcome. destruct reply as [r|]; [|reflexivity].
  repeat (destruct (status_code r =? _); [reflexivity|]).
  destruct (is_error_status (status_code r)); [reflexivity|].
  destruct (json r); reflexivity.
Qed.

Lemma upload_video_requests w s s1 path t d p ch wt :
  authenticated w s s1 ->
  requests (snd (upload_video w path t d p ch wt s)) =
  requests s1 ++
  (if readable w path
   then [upload_request (self s1) path t d p ch wt path] else []).
Proof.
  intros Ha. destruct (readable w path) eqn:Hrd.
  - rewrite (upload_video_run _ _ _ _ _ _ _ _ _ Ha Hrd).
    by rewrite upload_outcome_requests.
  - rewrite (upload_video_unreadable _ _ _ _ _ _ _ _ _ Ha Hrd). simpl.
    by rewrite app_nil_r.
Qed.

Lemma upload_outcome_self file path q reply s1 :
  self (snd (upload_outcome file path q reply s1)) = self s1.
Proof.
  unfold upload_outcome. repeat case_match; reflexivity.
Qed.

(** Past the opening authentication the session holds a token. *)
Lemma authenticated_token w s s1 :
  authenticated w s s1 -> exists tok, token (self s1) = Some tok.
Proof.
  unfold authenticated. destruct (truthy (token (self s))) eqn:Ht.
  - intros ->. destruct (token (self s)) as [tok|]; [by exists tok | done].
  - intros H. apply login_inv in H
      as (cid & csecret & tok & profile & first & others & _ & _ & ->).
    by exists tok.
Qed.

(** The three ways a call of [upload_video] can go. *)
Lemma upload_video_cases w s path t d p ch wt :
  (exists e s1, truthy (token (self s)) = false /\ login w s = (inl e, s1) /\
                upload_video w path t d p ch wt s = (inl e, s1)) \/
  (exists s1, authenticated w s s1 /\ readable w path = false /\
              upload_video w path t d p ch wt s = (inl (OSError path), s1)) \/
  (exists s1, authenticated w s s1 /\ readable w path = true /\
              upload_video w path t d p ch wt s =
              upload_outcome (path_name path) path
                (upload_request (self s1) path t d p ch wt path)
                (respond w (requests s1)
                         (upload_request (self s1) path t d p ch wt path))
                s1).
Proof.
  assert (exists s1, authenticated w s s1 \/
            exists e, truthy (token (self s)) = false /\
                      login w s = (inl e, s1)) as (s1 & [Ha | (e & Ht & Hl)]).
  { destruct (truthy (token (self s))) eqn:Ht.
    - exists s. left. by apply authenticated_truthy.
    - destruct (login w s) as [[e | []] s1] eqn:Hl.
      + exists s1. right. by exists e.
      + exists s1. left. by apply authenticated_login. }
  - destruct (readable w path) eqn:Hrd.
    + right; right. exists s1. eauto using upload_video_run.
    + right; left. exists s1. eauto using upload_video_unreadable.
  - left. exists e, s1. eauto using upload_video_login_fails.
Qed.

Lemma authenticated_requests w s s1 :
  authenticated w s s1 ->
  exists l, requests s1 = requests s ++ l /\ forallb is_auth_request l = true.
Proof.
  unfold authenticated. destruct (truthy (token (self s))).
  - intros ->. exists []. by rewrite app_nil_r.
  - intros H. apply login_effects in H as (l & o & Hl & _ & Hf & _). eauto.
Qed.

(** Each request of a call of [upload_video] is an authentication request
    or the upload of the given file with the given wait flag. *)
Lemma upload_video_trace w s path t d p ch wt :
  exists l,
    requests (snd (upload_video w path t d p ch wt s)) = requests s ++ l /\
    Forall (fun q => is_auth_request q = true \/
                     exists dt f, payload q = Multipart dt f /\
                                  data_waitTranscoding dt = wt /\
                                  file_handle f = path) l.
Proof.
  destruct (upload_video_cases w s path t d p ch wt)
    as [(e & s1 & Ht & Hl & ->) | [(s1 & Ha & Hrd & ->) | (s1 & Ha & Hrd & ->)]].
  - apply login_effects in Hl as (l & o & Hl & _ & Hf & _). exists l.
    split; [done|]. apply Forall_forall. intros q Hq. left.
    rewrite forallb_forall in Hf. apply Hf. by apply list_elem_of_In.
  - apply authenticated_requests in Ha as (l & Hl & Hf). exists l.
    split; [done|]. apply Forall_forall. intros q Hq. left.
    rewrite forallb_forall in Hf. apply Hf. by apply list_elem_of_In.
  - rewrite upload_outcome_requests. simpl.
    apply authenticated_requests in Ha as (l & Hl & Hf).
    exists (l ++ [upload_request (self s1) path t d p ch wt path]).
    split; [by rewrite Hl, app_assoc|].
    apply Forall_app. split.
    + apply Forall_forall. intros q Hq. left.
      rewrite forallb_forall in Hf. apply Hf. by apply list_elem_of_In.
    + apply Forall_singleton. right. by eexists _, _.
Qed.

(** ** [bulk_upload] *)

Lemma bulk_loop_attempts w entries p ch results s :
  bulk_loop w entries p ch results s =
  (inr (results ++ successes (fst (attempts w (List.filter is_video entries) p ch s))),
   snd (attempts w (List.filter is_video entries) p ch s)).
Proof.
  revert results s. induction entries as [|file rest IH]; intros results s.
  - simpl. unfold ret. by rewrite app_nil_r.
  - simpl. destruct (is_video file); [|apply IH].
    simpl. unfold bind at 1. unfold get_open_files at 1.
    unfold bind at 1. unfold try_except, bind at 1.
    destruct (upload_video w file None None p ch true s) as [[e | doc] s1];
      simpl; rewrite IH; unfold after_attempt;
      destruct (attempts w (List.filter is_video rest) p ch _) as [os s'];
      simpl; [done|]. by rewrite <- app_assoc.
Qed.



Lemma upload_outcome_stdout file path q reply s1 :
  exists o, stdout (snd (upload_outcome file path q reply s1)) = stdout s1 ++ o.
Proof.
  unfold upload_outcome.
  repeat case_match; norm_state; eexists; reflexivity.
Qed.

Lemma authenticated_stdout w s s1 :
  authenticated w s s1 -> exists o, stdout s1 = stdout s ++ o.
Proof.
  unfold authenticated. destruct (truthy (token (self s))).
  - intros ->. exists []. by rewrite app_nil_r.
  - intros H. apply login_effects in H as (l & o & _ & _ & _ & Ho & _). eauto.
Qed.

(** [upload_video] only adds to what is printed. *)
Lemma upload_video_stdout w s path t d p ch wt :
  exists o, stdout (snd (upload_video w path t d p ch wt s)) = stdout s ++ o.
Proof.
  destruct (upload_video_cases w s path t d p ch wt)
    as [(e & s1 & Ht & Hl & ->) | [(s1 & Ha & Hrd & ->) | (s1 & Ha & Hrd & ->)]].
  - apply login_effects in Hl as (l & o & _ & _ & _ & Ho & _). eauto.
  - by apply authenticated_stdout in Ha.
  - apply authenticated_stdout in Ha as (o1 & Ho1).
    destruct (upload_outcome_stdout (path_name path) path
                (upload_request (self s1) path t d p ch wt path)
                (respond w (requests s1)
                   (upload_request (self s1) path t d p ch wt path))
                s1) as (o2 & Ho2).
    exists (o1 ++ o2). rewrite Ho2. simpl. by rewrite Ho1, app_assoc.
Qed.

Lemma attempts_files w files p ch s :
  fst <$> fst (attempts w files p ch s) = files.
Proof.
  revert s. induction files as [|file rest IH]; intros s; [done|].
  simpl. destruct (upload_video w file None None p ch true s) as [o s1].
  specialize (IH (after_attempt file o s s1)).
  destruct (attempts w rest p ch _) as [os s']. simpl in *.
  f_equal. exact IH.
Qed.

Lemma attempts_stdout w files p ch s :
  exists o, stdout (snd (attempts w files p ch s)) = stdout s ++ o.
Proof.
  revert s. induction files as [|file rest IH]; intros s.
  - exists []. simpl. by rewrite app_nil_r.
  - simpl.
    destruct (upload_video_stdout w s file None None p ch true) as (o1 & Ho1).
    destruct (upload_video w file None None p ch true s) as [o s1].
    simpl in Ho1.
    destruct (IH (after_attempt file o s s1)) as (o2 & Ho2).
    destruct (attempts w rest p ch _) as [os s']. simpl in *.
    rewrite Ho2. destruct o; simpl; rewrite Ho1, <- ?app_assoc; eauto.
Qed.

(** Every failed attempt has its report among the printed lines. *)
Lemma attempts_reported w files p ch s file e :
  (file, inl e) ∈ fst (attempts w files p ch s) ->
  ErrorUploading (path_name file) e ∈ stdout (snd (attempts w files p ch s)).
Proof.
  revert s. induction files as [|f rest IH]; intros s; simpl.
  - intros H. by apply elem_of_nil in H.
  - destruct (upload_video w f None None p ch true s) as [o s1].
    pose proof (IH (after_attempt f o s s1)) as IH'.
    pose proof (attempts_stdout w rest p ch
                  (after_attempt f o s s1)) as (o2 & Ho2).
    destruct (attempts w rest p ch _) as [os s']. simpl in *.
    intros [Heq | Hin]%elem_of_cons; [|by apply IH'].
    inversion Heq; subst. rewrite Ho2. simpl.
    apply elem_of_app. left. apply elem_of_app. right. apply list_elem_of_singleton.
    done.
Qed.

(** The requests of a run of attempts: authentications, and uploads of the
    given files that ask to wait for transcoding. *)
Lemma attempts_trace w files p ch s :
  exists l,
    requests (snd (attempts w files p ch s)) = requests s ++ l /\
    Forall (fun q => is_auth_request q = true \/
                     exists path, path ∈ files /\ uploads_waiting path q) l.
Proof.
  revert s. induction files as [|file rest IH]; intros s.
  - exists []. simpl. by rewrite app_nil_r.
  - simpl.
    destruct (upload_video_trace w s file None None p ch true) as (l1 & Hl1 & Hf1).
    destruct (upload_video w file None None p ch true s) as [o s1].
    simpl in Hl1.
    destruct (IH (after_attempt file o s s1)) as (l2 & Hl2 & Hf2).
    destruct (attempts w rest p ch _) as [os s']. simpl in *.
    exists (l1 ++ l2). split.
    + rewrite Hl2. destruct o; simpl; by rewrite Hl1, app_assoc.
    + apply Forall_app. split.
      * eapply Forall_impl; [exact Hf1|]. simpl.
        intros q [Hq | (dt & f & Hp & Hw & Hh)]; [by left|right].
        exists file. split; [by left|]. unfold uploads_waiting. by rewrite Hp.
      * eapply Forall_impl; [exact Hf2|]. simpl.
        intros q [Hq | (path & Hin & Hu)]; [by left|right].
        exists path. split; [by right|done].
Qed.

(** ** The channel cache built by [login] *)

Lemma channel_dict_fold (l : list Channel) (m : gmap string Z) :
  NoDup (name <$> l) ->
  (forall c, c ∈ l -> m !! name c = None) ->
  let m' := fold_left (fun m c => <[name c := id c]> m) l m in
  size m' = (size m + length l)%nat /\
  (forall c, c ∈ l -> m' !! name c = Some (id c)) /\
  (forall k, k ∉ name <$> l -> m' !! k = m !! k).
Proof.
  revert m. induction l as [|c l IH]; intros m Hnd Hfresh; simpl.
  - split; [lia|]. split; [|done]. intros c Hc. by apply elem_of_nil in Hc.
  - rewrite fmap_cons in Hnd. apply NoDup_cons in Hnd as [Hc Hnd].
    destruct (IH (<[name c := id c]> m)) as (Hsize & Hin & Hout).
    + done.
    + intros c' Hc'. rewrite lookup_insert_ne.
      * apply Hfresh. by right.
      * intros Heq. apply Hc. rewrite Heq. by apply list_elem_of_fmap_2.
    + split; [|split].
      * rewrite Hsize, map_size_insert_None; [lia|]. apply Hfresh. by left.
      * intros c' [-> | Hc']%elem_of_cons; [|by apply Hin].
        rewrite Hout; [by rewrite lookup_insert_eq | done].
      * intros k Hk. rewrite Hout.
        -- apply lookup_insert_ne. intros <-. apply Hk. by left.
        -- intros Hk'. apply Hk. by right.
Qed.

Lemma is_video_extension file :
  is_video file = true <->
  lower (path_suffix file) ∈ [".mp4"; ".webm"; ".mkv"].
Proof.
  unfold is_video. rewrite !orb_true_iff, !String.eqb_eq.
  rewrite !elem_of_cons, elem_of_nil. tauto.
Qed.

(** * The properties *)

(** C1. A call of [upload_video] or [create_channel] on a session whose
    token is absent (falsy) runs [login] exactly once before anything else.
    If that login fails, the call ends with the login's error and state,
    having issued authentication requests only.  If it succeeds, the
    requests issued are the client-credential fetch, the token exchange and
    the profile fetch, in this order, followed by the request of the call
    itself, which carries the token just stored as its bearer token (for an
    upload: provided the file opens; otherwise no upload request is
    issued).  And on any session, a request of [upload_video] that is not
    an authentication request carries as bearer token the token the session
    holds. *)
Theorem absent_token_authenticates_once w s name dn ds path t d p ch wt :
  (truthy (token (self s)) = false ->
   match login w s with
   | (inl e, s1) =>
       create_channel w name dn ds s = (inl e, s1) /\
       upload_video w path t d p ch wt s = (inl e, s1) /\
       exists l, requests s1 = requests s ++ l /\
                 forallb is_auth_request l = true
   | (inr _, s1) =>
       exists cid csecret tok,
         token (self s1) = Some tok /\
         requests s1 =
           requests s ++ [client_request (self s);
                          token_request (self s) cid csecret;
                          me_request (with_token (Some tok) (self s))] /\
         requests (snd (create_channel w name dn ds s)) =
           requests s1 ++ [channel_request (self s1) name dn ds] /\
         authorization (channel_request (self s1) name dn ds) =
           Some ("Bearer " +:+ tok) /\
         requests (snd (upload_video w path t d p ch wt s)) =
           requests s1 ++
           (if readable w path
            then [upload_request (self s1) path t d p ch wt path] else []) /\
         authorization (upload_request (self s1) path t d p ch wt path) =
           Some ("Bearer " +:+ tok)
   end) /\
  (forall l q,
     requests (snd (upload_video w path t d p ch wt s)) = requests s ++ l ->
     q ∈ l -> is_auth_request q = false ->
     exists tok,
       token (self (snd (upload_video w path t d p ch wt s))) = Some tok /\
       authorization q = Some ("Bearer " +:+ tok)).
Proof.
  split.
  - intros Ht. destruct (login w s) as [[e | []] s1] eqn:Hl.
    + split; [by apply create_channel_login_fails|].
      split; [by apply upload_video_login_fails|].
      apply login_effects in Hl as (l & o & Hl & _ & Hf & _). eauto.
    + pose proof (authenticated_login _ _ _ Ht Hl) as Ha.
      destruct (login_inv _ _ _ Hl)
        as (cid & csecret & tok & profile & first & others & _ & _ & ->).
      exists cid, csecret, tok.
      split; [done|]. split; [done|].
      split; [by apply create_channel_requests|]. split; [done|].
      split; [by apply upload_video_requests|done].
  - intros l q Hreq Hq Hnot.
    assert (forall l', forallb is_auth_request l' = true -> q ∉ l') as Hauth.
    { intros l' Hf Hin. rewrite forallb_forall in Hf.
      apply list_elem_of_In, Hf in Hin. congruence. }
    destruct (upload_video_cases w s path t d p ch wt)
      as [(e & s1 & Ht & Hl & Hup) | [(s1 & Ha & Hrd & Hup) | (s1 & Ha & Hrd & Hup)]];
      rewrite Hup in Hreq |- *.
    + apply login_effects in Hl as (l' & o & Hl & _ & Hf & _).
      simpl in Hreq. rewrite Hl in Hreq. apply app_inv_head in Hreq as <-.
      by apply Hauth in Hf.
    + apply authenticated_requests in Ha as (l' & Hl & Hf).
      simpl in Hreq. rewrite Hl in Hreq. apply app_inv_head in Hreq as <-.
      by apply Hauth in Hf.
    + rewrite upload_outcome_requests in Hreq. rewrite upload_outcome_self.
      destruct (authenticated_token _ _ _ Ha) as (tok & Htok).
      apply authenticated_requests in Ha as (l' & Hl & Hf).
      simpl in Hreq. rewrite Hl, <- app_assoc in Hreq.
      apply app_inv_head in Hreq as <-.
      apply elem_of_app in Hq as [Hq | ->%list_elem_of_singleton].
      * by apply Hauth in Hf.
      * exists tok. simpl. by rewrite Htok.
Qed.

Lemma absent_token_authenticates_once_witness :
  truthy (token (self fresh)) = false /\
  exists s1 tok,
    login w_sample fresh = (inr tt, s1) /\
    token (self s1) = Some tok /\
    requests (snd (upload_video w_sample "videos/a.mp4" None None 1 None
                                true fresh)) =
    requests s1 ++ [upload_request (self s1) "videos/a.mp4" None None 1 None
                                   true "videos/a.mp4"] /\
    authorization (upload_request (self s1) "videos/a.mp4" None None 1 None
                                  true "videos/a.mp4") =
    Some ("Bearer " +:+ tok).
Proof.
  split; [reflexivity|].
  pose proof (proj1 (absent_token_authenticates_once w_sample fresh "x" None
                       None "videos/a.mp4" None None 1 None true) eq_refl)
    as H.
  destruct (login w_sample fresh) as [[e | []] s1] eqn:Hl.
  - vm_compute in Hl. discriminate Hl.
  - destruct H as (cid & csecret & tok & Htok & _ & _ & _ & Hup & Hauth).
    exists s1, tok. split; [reflexivity|]. split; [exact Htok|].
    split; [exact Hup | exact Hauth].
Defined.

(** C2, as stated, fails: after [login] has raised for a profile without
    channels the session still holds the token, and an upload on it goes
    straight to the upload request, unlike on a session without token. *)
Lemma token_survives_no_channels :
  fst (login w_no_channel fresh) = inl (Exception "No video channels found") /\
  token (self (snd (login w_no_channel fresh))) = Some "tok" /\
  fst (upload_video w_no_channel "videos/a.mp4" None None 1 None true
                    (snd (login w_no_channel fresh))) =
    inr (VideoDoc 10 "a.mp4") /\
  fst (upload_video w_no_channel "videos/a.mp4" None None 1 None true
                    (with_self (with_token None
                                  (self (snd (login w_no_channel fresh))))
                               (snd (login w_no_channel fresh)))) =
    inl (Exception "No video channels found").
Proof. vm_compute. repeat split; reflexivity. Qed.

(** C2, amended. When the profile lists no channel (the key is missing or
    the list is empty) [login] raises "No video channels found"; the token
    of the token exchange stays stored on the session, the default channel
    and the cache are as before, and, the token being non-empty, a later
    upload or channel creation on the session does not authenticate again:
    its own request is the only one it issues. *)
Theorem no_channels_fails_token_kept w s cid csecret tok profile :
  auth_exchange w s cid csecret tok profile ->
  get_videoChannels profile = None \/ get_videoChannels profile = Some [] ->
  let s1 := token_stored s cid csecret tok in
  login w s = (inl (Exception "No video channels found"), s1) /\
  token (self s1) = Some tok /\
  default_channel_id (self s1) = default_channel_id (self s) /\
  channels (self s1) = channels (self s) /\
  (tok <> "" ->
   forall path t d p ch wt name dn ds,
     requests (snd (upload_video w path t d p ch wt s1)) =
       requests s1 ++
       (if readable w path
        then [upload_request (self s1) path t d p ch wt path] else []) /\
     requests (snd (create_channel w name dn ds s1)) =
       requests s1 ++ [channel_request (self s1) name dn ds]).
Proof.
  intros Hx Hnone s1. split; [exact (login_no_channels _ _ _ _ _ _ Hx Hnone)|].
  repeat split; try done.
  - apply upload_video_requests, authenticated_truthy. simpl.
    by apply negb_true_iff, String.eqb_neq.
  - apply create_channel_requests, authenticated_truthy. simpl.
    by apply negb_true_iff, String.eqb_neq.
Qed.

Lemma sample_exchange profile create upload files :
  auth_exchange (sample_world profile create upload files) fresh
                "client" "secret" "tok" profile.
Proof.
  by apply (AuthExchange _ _ _ _ _ _
              {| status_code := 200; text := "OK";
                 json := Some (OAuthClientDoc "client" "secret") |}
              {| status_code := 200; text := "OK";
                 json := Some (TokenDoc "tok") |}
              {| status_code := 200; text := "OK"; json := Some profile |}).
Defined.

Lemma no_channels_fails_token_kept_witness :
  auth_exchange w_no_channel fresh "client" "secret" "tok" (UserDoc (Some [])) /\
  login w_no_channel fresh =
    (inl (Exception "No video channels found"),
     token_stored fresh "client" "secret" "tok").
Proof.
  split; [apply sample_exchange|].
  apply (no_channels_fails_token_kept w_no_channel fresh "client" "secret"
           "tok" (UserDoc (Some []))).
  - apply sample_exchange.
  - right. reflexivity.
Defined.

(** C3. Given the directory's listing, of entries with ASCII names,
    [bulk_upload] returns normally: its value is the list of the result
    documents of the uploads that succeeded, in the order the files were
    processed; every upload that raised has its error printed and is
    followed by the next file.  So when the second of three uploads raises,
    the first and the third result are returned, in this order. *)
Theorem bulk_upload_survives_failures w dir p ch s entries :
  listing w dir = Some entries ->
  ascii_names entries ->
  let run := attempts w (List.filter is_video entries) p ch s in
  bulk_upload w dir p ch s = (inr (successes (fst run)), snd run) /\
  (forall file e,
     (file, inl e) ∈ fst run ->
     ErrorUploading (path_name file) e ∈ stdout (snd run)) /\
  (forall f1 d1 f2 e2 f3 d3,
     fst run = [(f1, inr d1); (f2, inl e2); (f3, inr d3)] ->
     fst (bulk_upload w dir p ch s) = inr [d1; d3]).
Proof.
  intros Hdir _ run.
  assert (bulk_upload w dir p ch s = (inr (successes (fst run)), snd run))
    as Hrun.
  { unfold bulk_upload, iterdir, bind. rewrite Hdir. unfold ret.
    by rewrite bulk_loop_attempts. }
  split; [done|]. split.
  - intros file e. apply attempts_reported.
  - intros f1 d1 f2 e2 f3 d3 Hthree. by rewrite Hrun, Hthree.
Qed.

Lemma bulk_upload_survives_failures_witness :
  listing w_sample "videos" = Some sample_files /\
  ascii_names sample_files /\
  fst (bulk_upload w_sample "videos" 1 None fresh) =
    inr [VideoDoc 10 "a.mp4"; VideoDoc 10 "d.webm"].
Proof.
  assert (ascii_names sample_files) as Hascii by (vm_compute; reflexivity).
  split; [reflexivity|]. split; [exact Hascii|].
  destruct (bulk_upload_survives_failures w_sample "videos" 1 None fresh
              sample_files eq_refl Hascii) as (_ & _ & Hthree).
  apply (Hthree "videos/a.mp4" (VideoDoc 10 "a.mp4")
                "videos/c.MKV" (Exception msg_413)
                "videos/d.webm" (VideoDoc 10 "d.webm")).
  vm_compute. reflexivity.
Defined.

(** C4. When the create-channel request is answered with an error status,
    [create_channel] returns normally (with [None], after printing the
    conflict) if the status is 409, and raises the [HTTPError] to the
    caller for any other error status.  On a conflict the cache is left as
    it was when the request was issued: no entry is added or overwritten;
    for a session that already held a token this is the cache the call
    started with. *)
Theorem create_channel_conflict_keeps_cache w s s1 name dn ds r :
  authenticated w s s1 ->
  respond w (requests s1) (channel_request (self s1) name dn ds) = Replied r ->
  is_error_status (status_code r) = true ->
  let q := channel_request (self s1) name dn ds in
  let out := create_channel w name dn ds s in
  (status_code r = 409 ->
   out = (inr None, add_output (ChannelMightExist (HTTPError r))
                               (add_request q s1)) /\
   channels (self (snd out)) = channels (self s1) /\
   (truthy (token (self s)) = true ->
    channels (self (snd out)) = channels (self s))) /\
  (status_code r <> 409 ->
   out = (inl (HTTPError r), add_request q s1)).
Proof.
  intros Ha Hr Hs q out.
  pose proof (create_channel_error _ _ _ name dn ds _ Ha Hr Hs) as Hout.
  fold out in Hout. split.
  - intros H409. rewrite H409 in Hout. simpl in Hout. rewrite Hout.
    repeat split. simpl. intros Ht.
    unfold authenticated in Ha. rewrite Ht in Ha. by subst.
  - intros Hne. apply Z.eqb_neq in Hne. by rewrite Hne in Hout.
Qed.

Lemma create_channel_conflict_keeps_cache_witness :
  authenticated w_sample fresh (snd (login w_sample fresh)) /\
  channels (self (snd (create_channel w_sample "news" None None fresh))) =
  channels (self (snd (login w_sample fresh))).
Proof.
  assert (authenticated w_sample fresh (snd (login w_sample fresh))) as Ha
    by (vm_compute; reflexivity).
  split; [exact Ha|].
  apply (create_channel_conflict_keeps_cache w_sample fresh _ "news" None None
           conflict Ha); reflexivity.
Defined.

(** C10. When the create-channel request is answered with status 409,
    [create_channel] returns [None], whatever document the response
    carries: the conflicting channel's id is not to be had from the value
    returned. *)
Theorem create_channel_conflict_returns_none w s s1 name dn ds r :
  authenticated w s s1 ->
  respond w (requests s1) (channel_request (self s1) name dn ds) = Replied r ->
  status_code r = 409 ->
  fst (create_channel w name dn ds s) = inr None.
Proof.
  intros Ha Hr H409.
  rewrite (create_channel_error _ _ _ name dn ds _ Ha Hr).
  - by rewrite H409.
  - by rewrite H409.
Qed.

Lemma create_channel_conflict_returns_none_witness :
  authenticated w_sample fresh (snd (login w_sample fresh)) /\
  json conflict = Some (ChannelDoc 2 "News") /\
  fst (create_channel w_sample "news" None None fresh) = inr None.
Proof.
  assert (authenticated w_sample fresh (snd (login w_sample fresh))) as Ha
    by (vm_compute; reflexivity).
  split; [exact Ha|]. split; [reflexivity|].
  apply (create_channel_conflict_returns_none w_sample fresh _ "news" None
           None conflict Ha); reflexivity.
Defined.

(** C5. Once the upload request has been answered: status 415 raises the
    format-not-supported error, 413 the quota error, 422 the
    file-unreadable error, three errors that differ pairwise; any other
    error status raises the [HTTPError] of the response, after the failure
    and the text of the response body have been printed. *)
Theorem upload_status_errors w s s1 path t d p ch wt r :
  authenticated w s s1 ->
  readable w path = true ->
  respond w (requests s1) (upload_request (self s1) path t d p ch wt path) =
    Replied r ->
  let out := upload_video w path t d p ch wt s in
  (status_code r = 415 -> fst out = inl (Exception msg_415)) /\
  (status_code r = 413 -> fst out = inl (Exception msg_413)) /\
  (status_code r = 422 -> fst out = inl (Exception msg_422)) /\
  (Exception msg_415 <> Exception msg_413 /\
   Exception msg_413 <> Exception msg_422 /\
   Exception msg_415 <> Exception msg_422) /\
  (is_error_status (status_code r) = true ->
   status_code r <> 415 -> status_code r <> 413 -> status_code r <> 422 ->
   fst out = inl (HTTPError r) /\
   stdout (snd out) =
     stdout s1 ++ [Uploading (path_name path); UploadFailed (HTTPError r);
                   ServerResponse (text r)]).
Proof.
  intros Ha Hrd Hr out. unfold out.
  rewrite (upload_video_run _ _ _ _ _ _ _ _ _ Ha Hrd), Hr.
  unfold upload_outcome.
  split; [by intros ->|]. split; [by intros ->|]. split; [by intros ->|].
  split; [by repeat split|].
  intros Hs H415 H413 H422.
  apply Z.eqb_neq in H415 as ->. apply Z.eqb_neq in H413 as ->.
  apply Z.eqb_neq in H422 as ->. rewrite Hs.
  split; [done|]. norm_state. reflexivity.
Qed.

Lemma upload_status_errors_witness :
  authenticated w_sample fresh (snd (login w_sample fresh)) /\
  fst (upload_video w_sample "videos/c.MKV" None None 1 None true fresh) =
    inl (Exception msg_413).
Proof.
  assert (authenticated w_sample fresh (snd (login w_sample fresh))) as Ha
    by (vm_compute; reflexivity).
  split; [exact Ha|].
  destruct (upload_status_errors w_sample fresh _ "videos/c.MKV" None None 1
              None true (Build_Response 413 "quota exceeded" None) Ha
              eq_refl eq_refl) as (_ & H413 & _).
  apply H413. reflexivity.
Defined.

(** C6. When the three exchanges of an authentication succeed and the
    profile lists N >= 1 channels with pairwise distinct names, [login]
    succeeds, the default channel id is the id of the first channel
    listed, and the cache has exactly N entries: every listed channel's
    name is mapped to its id, and no other name is mapped. *)
Theorem login_default_channel_and_cache w s cid csecret tok chans :
  auth_exchange w s cid csecret tok (UserDoc (Some chans)) ->
  (1 <= length chans)%nat ->
  NoDup (name <$> chans) ->
  exists s1,
    login w s = (inr tt, s1) /\
    token (self s1) = Some tok /\
    default_channel_id (self s1) = id <$> head chans /\
    size (channels (self s1)) = length chans /\
    (forall c, c ∈ chans -> channels (self s1) !! name c = Some (id c)) /\
    (forall k, k ∉ name <$> chans -> channels (self s1) !! k = None).
Proof.
  intros Hx Hlen Hnd.
  destruct chans as [|first others]; [simpl in Hlen; lia|].
  exists (logged_in s cid csecret tok (first :: others)).
  split; [by apply (login_channels _ _ _ _ _ (UserDoc (Some (first :: others))))|].
  split; [done|]. split; [done|].
  destruct (channel_dict_fold (first :: others) ∅ Hnd) as (Hsize & Hin & Hout).
  { intros c _. apply lookup_empty. }
  split; [|split].
  - cbn [logged_in self channels]. unfold channel_dict.
    rewrite Hsize, map_size_empty. done.
  - exact Hin.
  - intros k Hk. cbn [logged_in self channels]. unfold channel_dict.
    rewrite Hout; [apply lookup_empty | done].
Qed.

Lemma login_default_channel_and_cache_witness :
  NoDup (name <$> two_channels) /\
  exists s1,
    login w_sample fresh = (inr tt, s1) /\
    token (self s1) = Some "tok" /\
    default_channel_id (self s1) = Some 1 /\
    size (channels (self s1)) = 2%nat /\
    (forall c, c ∈ two_channels -> channels (self s1) !! name c = Some (id c)) /\
    (forall k, k ∉ name <$> two_channels -> channels (self s1) !! k = None).
Proof.
  assert (NoDup (name <$> two_channels)) as Hnd.
  { apply NoDup_cons. split.
    - intros [H | H]%elem_of_cons; [discriminate H|].
      by apply elem_of_nil in H.
    - apply NoDup_singleton. }
  split; [exact Hnd|].
  apply (login_default_channel_and_cache w_sample fresh "client" "secret"
           "tok" two_channels).
  - apply sample_exchange.
  - simpl. lia.
  - exact Hnd.
Defined.

(** C7. The upload request issued for a file carries as target channel:
    the cache's entry for the channel name given, when there is one; the
    session's default channel id when the name given is not in the cache
    (no error is raised: the request is issued); the default channel id
    when no name is given, an empty name counting as none. *)
Theorem upload_channel_resolution w s s1 path t d p ch wt :
  authenticated w s s1 ->
  readable w path = true ->
  exists q dt f,
    requests (snd (upload_video w path t d p ch wt s)) = requests s1 ++ [q] /\
    payload q = Multipart dt f /\
    (forall n c, ch = Some n -> n <> "" -> channels (self s1) !! n = Some c ->
                 data_channelId dt = Some c) /\
    (forall n, ch = Some n -> channels (self s1) !! n = None ->
               data_channelId dt = default_channel_id (self s1)) /\
    (ch = None \/ ch = Some "" ->
     data_channelId dt = default_channel_id (self s1)).
Proof.
  intros Ha Hrd.
  eexists (upload_request (self s1) path t d p ch wt path), _, _.
  split.
  { rewrite (upload_video_requests _ _ _ _ _ _ _ _ _ Ha). by rewrite Hrd. }
  split; [reflexivity|]. cbn [data_channelId]. unfold select_channel.
  split; [|split].
  - intros n c -> Hn Hc. simpl. apply String.eqb_neq in Hn. by rewrite Hn, Hc.
  - intros n -> Hc. simpl. rewrite Hc. by destruct (negb _).
  - by intros [-> | ->].
Qed.

Lemma upload_channel_resolution_witness :
  authenticated w_sample fresh (snd (login w_sample fresh)) /\
  exists q dt f,
    requests (snd (upload_video w_sample "videos/a.mp4" None None 1
                                (Some "news") true fresh)) =
      requests (snd (login w_sample fresh)) ++ [q] /\
    payload q = Multipart dt f /\
    data_channelId dt = Some 2.
Proof.
  assert (authenticated w_sample fresh (snd (login w_sample fresh))) as Ha
    by (vm_compute; reflexivity).
  split; [exact Ha|].
  destruct (upload_channel_resolution w_sample fresh _ "videos/a.mp4" None
              None 1 (Some "news") true Ha eq_refl)
    as (q & dt & f & Hq & Hp & Hhit & _).
  exists q, dt, f. split; [exact Hq|]. split; [exact Hp|].
  apply (Hhit "news" 2); [reflexivity | discriminate | vm_compute; reflexivity].
Defined.

Lemma filter_is_video entries file :
  file ∈ List.filter is_video entries <->
  file ∈ entries /\ lower (path_suffix file) ∈ [".mp4"; ".webm"; ".mkv"].
Proof.
  rewrite <- is_video_extension, !list_elem_of_In. apply filter_In.
Qed.

(** C8. Given the directory's listing, of entries with ASCII names,
    [bulk_upload] runs the attempts on exactly the entries whose suffix,
    lowered, is [.mp4], [.webm] or [.mkv], one attempt per such entry in
    listing order; an upload request
    it issues is for one of these entries and asks to wait for transcoding;
    the other entries leave no trace and raise nothing.  [c.MKV] counts as
    a video, [b.txt] does not. *)
Theorem bulk_upload_video_extensions w dir p ch s entries :
  listing w dir = Some entries ->
  ascii_names entries ->
  let videos := List.filter is_video entries in
  let run := attempts w videos p ch s in
  (forall file,
     file ∈ videos <->
     file ∈ entries /\ lower (path_suffix file) ∈ [".mp4"; ".webm"; ".mkv"]) /\
  fst <$> fst run = videos /\
  bulk_upload w dir p ch s = (inr (successes (fst run)), snd run) /\
  (exists l,
     requests (snd (bulk_upload w dir p ch s)) = requests s ++ l /\
     Forall (fun q => is_auth_request q = true \/
                      exists path, path ∈ videos /\ uploads_waiting path q) l) /\
  is_video "c.MKV" = true /\ is_video "b.txt" = false.
Proof.
  intros Hdir _ videos run.
  assert (bulk_upload w dir p ch s = (inr (successes (fst run)), snd run))
    as Hrun.
  { unfold bulk_upload, iterdir, bind. rewrite Hdir. unfold ret.
    by rewrite bulk_loop_attempts. }
  split; [apply filter_is_video|].
  split; [apply attempts_files|].
  split; [exact Hrun|].
  split; [|by split].
  rewrite Hrun. apply attempts_trace.
Qed.

Lemma bulk_upload_video_extensions_witness :
  listing w_sample "videos" = Some sample_files /\
  ascii_names sample_files /\
  fst <$> fst (attempts w_sample (List.filter is_video sample_files) 1 None fresh)
  = ["videos/a.mp4"; "videos/c.MKV"; "videos/d.webm"].
Proof.
  assert (ascii_names sample_files) as Hascii by (vm_compute; reflexivity).
  split; [reflexivity|]. split; [exact Hascii|].
  destruct (bulk_upload_video_extensions w_sample "videos" 1 None fresh
              sample_files eq_refl Hascii) as (_ & Hfiles & _).
  rewrite Hfiles. reflexivity.
Defined.

(** C9, as stated, fails on the paths that raise: [upload_video] has no
    step that closes the file it opens, and when it raises (here for a
    mapped status and for a server error) the handle is still open as the
    exception reaches the caller. *)
Lemma upload_leaves_handle_open :
  (fst (upload_video w_sample "videos/c.MKV" None None 1 None true fresh) =
     inl (Exception msg_413) /\
   open_files (snd (upload_video w_sample "videos/c.MKV" None None 1 None
                                 true fresh)) = ["videos/c.MKV"]) /\
  (fst (upload_video w_broken "videos/a.mp4" None None 1 None true fresh) =
     inl (HTTPError server_error) /\
   open_files (snd (upload_video w_broken "videos/a.mp4" None None 1 None
                                 true fresh)) = ["videos/a.mp4"]).
Proof. vm_compute. repeat split; reflexivity. Qed.

(** C9, amended. [upload_video] never closes the file itself.  Once it
    has opened the file, on every path that raises (mapped error status,
    other error status, transport failure, body that is not JSON) the
    handle is still open when the exception reaches the caller: the open
    files are those at the start followed by the file just opened.  When
    it returns a document the handle is open no more, the file object
    having gone with the frame of the call. *)
Theorem upload_handle_open_when_raising w s s1 path t d p ch wt :
  authenticated w s s1 ->
  readable w path = true ->
  let out := upload_video w path t d p ch wt s in
  match fst out with
  | inl _ => open_files (snd out) = open_files s ++ [path]
  | inr _ => open_files (snd out) = open_files s
  end.
Proof.
  intros Ha Hrd out. unfold out.
  rewrite (upload_video_run _ _ _ _ _ _ _ _ _ Ha Hrd).
  rewrite upload_outcome_open_files.
  destruct (authenticated_effects _ _ _ Ha) as [-> _].
  by destruct (fst _).
Qed.

Lemma upload_handle_open_when_raising_witness :
  authenticated w_broken fresh (snd (login w_broken fresh)) /\
  fst (upload_video w_broken "videos/a.mp4" None None 1 None true fresh) =
    inl (HTTPError server_error) /\
  open_files (snd (upload_video w_broken "videos/a.mp4" None None 1 None
                                true fresh)) =
  open_files fresh ++ ["videos/a.mp4"].
Proof.
  assert (authenticated w_broken fresh (snd (login w_broken fresh))) as Ha
    by (vm_compute; reflexivity).
  assert (fst (upload_video w_broken "videos/a.mp4" None None 1 None true
                            fresh) = inl (HTTPError server_error)) as Hv
    by (vm_compute; reflexivity).
  split; [exact Ha|]. split; [exact Hv|].
  pose proof (upload_handle_open_when_raising w_broken fresh _ "videos/a.mp4"
                None None 1 None true Ha eq_refl) as H.
  cbv zeta in H. rewrite Hv in H. exact H.
Defined.

(** ** The examples of the specification, run on the sample service *)

(** A directory with [a.mp4], [b.txt], [c.MKV], [d.webm]: uploads are
    requested for [a.mp4], [c.MKV] and [d.webm], and for nothing else. *)
Example bulk_upload_sample_requests :
  (fun q => match payload q with
            | Multipart _ f => Some (file_name f)
            | _ => None
            end) <$> requests (snd (bulk_upload w_sample "videos" 1 None fresh))
  = [None; None; None; Some "a.mp4"; Some "c.MKV"; Some "d.webm"].
Proof. vm_compute. reflexivity. Qed.

(** The title defaults to the file's name without its extension. *)
Example upload_default_title :
  data_name <$>
    (match payload (upload_request (self fresh) "videos/clip.mp4" None None 1
                                   None true "videos/clip.mp4") with
     | Multipart dt _ => Some dt
     | _ => None
     end) = Some "clip".
Proof. reflexivity. Qed.

(** A created channel is added to the cache and its document returned. *)
Example create_channel_sample_success :
  let w := sample_world (UserDoc (Some two_channels))
                        (reply_ok (ChannelDoc 3 "Tests")) sample_upload [] in
  fst (create_channel w "tests" (Some "Tests") None fresh) =
    inr (Some (ChannelDoc 3 "Tests")) /\
  channels (self (snd (create_channel w "tests" (Some "Tests") None fresh)))
    !! "tests" = Some 3.
Proof. vm_compute. split; reflexivity. Qed.

(** * Further properties of the script *)

(** ** [__init__] *)

Lemma rstrip_slash_slashes h :
  exists n, h = rstrip_slash h +:+ slashes n.
Proof.
  induction h as [|c h' [n IH]]; [by exists 0%nat|].
  simpl. destruct (rstrip_slash h') as [|a t] eqn:Hr.
  - destruct (Ascii.eqb_spec c "/") as [-> | Hc].
    + exists (S n). rewrite IH at 1. reflexivity.
    + exists n. rewrite IH at 1. reflexivity.
  - exists n. rewrite IH at 1. reflexivity.
Qed.

Lemma rstrip_slash_no_slash h : ends_with_slash (rstrip_slash h) = false.
Proof.
  induction h as [|c h' IH]; [done|].
  simpl. destruct (rstrip_slash h') as [|a t] eqn:Hr.
  - destruct (Ascii.eqb_spec c "/") as [-> | Hc]; [done|].
    simpl. by apply Ascii.eqb_neq.
  - exact IH.
Qed.

(** X1. The host a session is constructed with is stored without its
    trailing slashes: the stored host does not end with a slash, and the
    host given is the stored one followed by slashes only.  The session
    starts without token, without default channel and with an empty
    cache. *)
Theorem init_strips_trailing_slashes h u p :
  ends_with_slash (host (init h u p)) = false /\
  (exists n, h = host (init h u p) +:+ slashes n) /\
  token (init h u p) = None /\
  default_channel_id (init h u p) = None /\
  channels (init h u p) = ∅.
Proof.
  split; [apply rstrip_slash_no_slash|].
  split; [apply rstrip_slash_slashes|done].
Qed.

(** ** [login], when it fails and when names repeat *)

Lemma login_failure_cases w s e s1 :
  login w s = (inl e, s1) ->
  self s1 = self s \/
  exists cid csecret tok, s1 = token_stored s cid csecret tok.
Proof.
  unfold login. run. simpl. intros H.
  repeat (case_match; simplify_eq; simpl in * );
    first [ by left
          | right; eexists _, _, _; norm_state; rewrite ?app_two;
            reflexivity ].
Qed.

(** X2. A login that fails leaves the session as it was, or as it was but
    for the token, which is then the one just obtained: host, credentials,
    default channel and cache are never touched by a failing login, and
    the token is replaced only once the token exchange has succeeded
    (three requests issued). *)
Theorem login_failure_keeps_session w s e s1 :
  login w s = (inl e, s1) ->
  (self s1 = self s \/
   exists tok, self s1 = with_token (Some tok) (self s) /\
               length (requests s1) = (length (requests s) + 3)%nat) /\
  default_channel_id (self s1) = default_channel_id (self s) /\
  channels (self s1) = channels (self s) /\
  host (self s1) = host (self s) /\
  username (self s1) = username (self s) /\
  password (self s1) = password (self s).
Proof.
  intros H.
  destruct (login_failure_cases _ _ _ _ H) as [Hs | (cid & cs & tok & ->)].
  - rewrite Hs. split; [by left|done].
  - split; [|done]. right. exists tok. split; [done|].
    simpl. rewrite length_app. simpl. lia.
Qed.

Lemma login_failure_keeps_session_witness :
  login w_no_channel fresh =
    (inl (Exception "No video channels found"),
     token_stored fresh "client" "secret" "tok") /\
  channels (self (token_stored fresh "client" "secret" "tok")) =
  channels (self fresh).
Proof.
  assert (login w_no_channel fresh =
          (inl (Exception "No video channels found"),
           token_stored fresh "client" "secret" "tok")) as Hl
    by (vm_compute; reflexivity).
  split; [exact Hl|].
  apply (login_failure_keeps_session _ _ _ _ Hl).
Defined.

Lemma channel_dict_fold_last (l : list Channel) (m : gmap string Z) k :
  fold_left (fun m c => <[name c := id c]> m) l m !! k =
  match last (filter (fun c => name c = k) l) with
  | Some c => Some (id c)
  | None => m !! k
  end.
Proof.
  revert m. induction l as [|c l IH]; intros m; [done|].
  simpl. rewrite IH. rewrite filter_cons.
  destruct (decide (name c = k)) as [<- | Hne].
  - rewrite last_cons. destruct (last (filter _ l)); [done|].
    by rewrite lookup_insert_eq.
  - destruct (last (filter _ l)); [done|]. by rewrite lookup_insert_ne.
Qed.

Lemma channel_dict_fold_size (l : list Channel) (m : gmap string Z) :
  (size (fold_left (fun m c => <[name c := id c]> m) l m)
   <= size m + length l)%nat.
Proof.
  revert m. induction l as [|c l IH]; intros m; simpl; [lia|].
  etransitivity; [apply IH|]. rewrite map_size_insert.
  destruct (m !! name c); unfold Datatypes.id; lia.
Qed.

(** X3. After a successful login the cache maps a name to the id of the
    last channel of the profile listed under that name, and maps nothing
    else, whatever it held before; it has at most as many entries as the
    profile lists channels.  (Channels that share a name thus share one
    entry, the later one winning.) *)
Theorem login_cache_last_listed_wins w s cid csecret tok chans :
  auth_exchange w s cid csecret tok (UserDoc (Some chans)) ->
  chans <> [] ->
  exists s1,
    login w s = (inr tt, s1) /\
    (forall k, channels (self s1) !! k =
               id <$> last (filter (fun c => name c = k) chans)) /\
    (size (channels (self s1)) <= length chans)%nat.
Proof.
  intros Hx Hne. destruct chans as [|first others]; [done|].
  exists (logged_in s cid csecret tok (first :: others)).
  split; [by apply (login_channels _ _ _ _ _ (UserDoc (Some (first :: others))))|].
  cbn [logged_in self channels]. unfold channel_dict. split.
  - intros k. rewrite channel_dict_fold_last.
    destruct (last _); [done|]. apply lookup_empty.
  - etransitivity; [apply channel_dict_fold_size|].
    by rewrite map_size_empty.
Qed.

Lemma login_cache_last_listed_wins_witness :
  twice_main <> [] /\
  exists s1,
    login (sample_world (UserDoc (Some twice_main)) (Replied conflict)
                        sample_upload sample_files) fresh = (inr tt, s1) /\
    channels (self s1) !! "main" = Some 3 /\
    (size (channels (self s1)) <= 3)%nat.
Proof.
  split; [discriminate|].
  destruct (login_cache_last_listed_wins
              (sample_world (UserDoc (Some twice_main)) (Replied conflict)
                            sample_upload sample_files)
              fresh "client" "secret" "tok" twice_main)
    as (s1 & Hl & Hk & Hsize).
  - apply sample_exchange.
  - discriminate.
  - exists s1. split; [exact Hl|]. split; [|exact Hsize].
    rewrite Hk. reflexivity.
Defined.

(** ** [create_channel], all outcomes *)

Lemma create_channel_run w s s1 name dn ds :
  authenticated w s s1 ->
  create_channel w name dn ds s =
  create_outcome name (channel_request (self s1) name dn ds)
    (respond w (requests s1) (channel_request (self s1) name dn ds)) s1.
Proof.
  intros Ha. unfold create_channel, create_outcome.
  enter Ha;
    (destruct (respond w _ _) as [r|]; [|reflexivity]);
    simpl; destruct (is_error_status (status_code r)) eqn:Hs; simpl.
  1,3: unfold exn_status; simpl; case_bool_decide as Hd;
       destruct (Z.eqb_spec (status_code r) 409);
       try reflexivity; exfalso; simplify_eq; auto with congruence.
  all: destruct (json r) as [[]|]; reflexivity.
Qed.

(** X4. When the create-channel request is answered with a status that is
    no error and a channel document, [create_channel] returns that
    document, stores the id under the name it was called with (replacing
    an entry of that name, leaving the others), prints the creation and
    leaves token and default channel alone. *)
Theorem create_channel_success_caches w s s1 name dn ds r i label :
  authenticated w s s1 ->
  respond w (requests s1) (channel_request (self s1) name dn ds) = Replied r ->
  is_error_status (status_code r) = false ->
  json r = Some (ChannelDoc i label) ->
  let out := create_channel w name dn ds s in
  fst out = inr (Some (ChannelDoc i label)) /\
  channels (self (snd out)) !! name = Some i /\
  (forall k, k <> name ->
             channels (self (snd out)) !! k = channels (self s1) !! k) /\
  token (self (snd out)) = token (self s1) /\
  default_channel_id (self (snd out)) = default_channel_id (self s1) /\
  stdout (snd out) = stdout s1 ++ [CreatedNewChannel name].
Proof.
  intros Ha Hr Hs Hj out. unfold out.
  rewrite (create_channel_run _ _ _ _ _ _ Ha), Hr.
  unfold create_outcome. rewrite Hs, Hj. simpl.
  split; [done|]. split; [apply lookup_insert_eq|].
  split; [|done]. intros k Hk. by apply lookup_insert_ne.
Qed.

Lemma create_channel_success_caches_witness :
  authenticated w_creating fresh (snd (login w_creating fresh)) /\
  fst (create_channel w_creating "tests" None None fresh) =
    inr (Some (ChannelDoc 3 "Tests")) /\
  channels (self (snd (create_channel w_creating "tests" None None fresh)))
    !! "tests" = Some 3.
Proof.
  assert (authenticated w_creating fresh (snd (login w_creating fresh))) as Ha
    by (vm_compute; reflexivity).
  split; [exact Ha|].
  destruct (create_channel_success_caches w_creating fresh _ "tests" None None
              (Build_Response 200 "OK" (Some (ChannelDoc 3 "Tests"))) 3
              "Tests" Ha eq_refl eq_refl eq_refl) as (Hv & Hc & _).
  split; [exact Hv | exact Hc].
Defined.

(** X5. Failures of the create-channel exchange other than an error status
    are not caught: a transport failure raises [ConnectionError], a body
    that is not JSON raises [JSONDecodeError], a document without id raises
    [KeyError]; in each case nothing is printed and the session is as the
    request found it (in the last two the status was no error, yet the
    channel is not cached). *)
Theorem create_channel_uncaught_failures w s s1 name dn ds :
  authenticated w s s1 ->
  let q := channel_request (self s1) name dn ds in
  let out := create_channel w name dn ds s in
  (respond w (requests s1) q = Unreachable ->
   out = (inl ConnectionError, add_request q s1)) /\
  (forall r, respond w (requests s1) q = Replied r ->
             is_error_status (status_code r) = false ->
             json r = None ->
             out = (inl JSONDecodeError, add_request q s1)) /\
  (forall r doc, respond w (requests s1) q = Replied r ->
                 is_error_status (status_code r) = false ->
                 json r = Some doc ->
                 (forall i label, doc <> ChannelDoc i label) ->
                 out = (inl (KeyError "id"), add_request q s1)).
Proof.
  intros Ha q out. unfold out, q.
  rewrite (create_channel_run _ _ _ _ _ _ Ha). unfold create_outcome.
  split; [by intros ->|]. split.
  - intros r -> -> ->. reflexivity.
  - intros r doc -> -> -> Hdoc. destruct doc; try reflexivity.
    by destruct (Hdoc channel_id displayName).
Qed.

Lemma create_channel_uncaught_failures_witness :
  authenticated w_unreachable (with_self (with_token (Some "tok") (self fresh))
                                         fresh)
                (with_self (with_token (Some "tok") (self fresh)) fresh) /\
  fst (create_channel w_unreachable "tests" None None
         (with_self (with_token (Some "tok") (self fresh)) fresh)) =
    inl ConnectionError.
Proof.
  assert (authenticated w_unreachable
            (with_self (with_token (Some "tok") (self fresh)) fresh)
            (with_self (with_token (Some "tok") (self fresh)) fresh)) as Ha
    by reflexivity.
  split; [exact Ha|].
  destruct (create_channel_uncaught_failures w_unreachable _ _ "tests" None
              None Ha) as (Hu & _).
  rewrite (Hu eq_refl). reflexivity.
Defined.

(** X6. [create_channel] changes the session (beyond what the opening
    authentication did) only when it returns a document, and then only the
    cache entry of the name it was called with: when it raises or returns
    [None] the session is exactly as the request found it. *)
Theorem create_channel_changes_cache_only_on_success w s s1 name dn ds :
  authenticated w s s1 ->
  let out := create_channel w name dn ds s in
  match fst out with
  | inr (Some doc) =>
      exists i, self (snd out) =
                with_channels (<[name := i]> (channels (self s1))) (self s1)
  | _ => self (snd out) = self s1
  end.
Proof.
  intros Ha out. unfold out.
  rewrite (create_channel_run _ _ _ _ _ _ Ha). unfold create_outcome.
  repeat case_match; simplify_eq; simpl; eauto.
Qed.

Lemma create_channel_changes_cache_only_on_success_witness :
  authenticated w_sample fresh (snd (login w_sample fresh)) /\
  self (snd (create_channel w_sample "news" None None fresh)) =
  self (snd (login w_sample fresh)).
Proof.
  assert (authenticated w_sample fresh (snd (login w_sample fresh))) as Ha
    by (vm_compute; reflexivity).
  split; [exact Ha|].
  pose proof (create_channel_changes_cache_only_on_success w_sample fresh _
                "news" None None Ha) as H.
  assert (fst (create_channel w_sample "news" None None fresh) = inr None)
    as Hv by (vm_compute; reflexivity).
  cbv zeta in H. rewrite Hv in H. exact H.
Defined.

(** ** [upload_video], all outcomes *)

Lemma append_empty_r s : s +:+ "" = s.
Proof.
  induction s as [|c s IH]; [done|].
  change (String c (s +:+ "") = String c s). by rewrite IH.
Qed.

Lemma substring_all s : substring 0 (String.length s) s = s.
Proof. induction s as [|c s IH]; simpl; [done|by rewrite IH]. Qed.

Lemma substring_split s i :
  (i <= String.length s)%nat ->
  substring 0 i s +:+ substring i (String.length s - i) s = s.
Proof.
  revert s. induction i as [|i IH]; intros s Hi.
  - rewrite Nat.sub_0_r, substring_all. by destruct s.
  - destruct s as [|c s]; simpl in *; [lia|].
    change (String c (substring 0 i s +:+
                      substring i (String.length s - i) s) = String c s).
    f_equal. apply IH. lia.
Qed.

(** [stem] and [suffix] split the name. *)
Lemma path_stem_suffix p : path_stem p +:+ path_suffix p = path_name p.
Proof.
  unfold path_stem, path_suffix.
  destruct (rfind "." (path_name p)) as [i|]; [|apply append_empty_r].
  destruct ((0 <? i)%nat && (i <? String.length (path_name p) - 1)%nat) eqn:Hc.
  - apply substring_split.
    apply andb_true_iff in Hc as [_ Hlt]. apply Nat.ltb_lt in Hlt. lia.
  - apply append_empty_r.
Qed.

Lemma upload_outcome_slept file path q reply s1 :
  slept (snd (upload_outcome file path q reply s1)) = slept s1.
Proof.
  unfold upload_outcome. repeat case_match; reflexivity.
Qed.

(** X7. When the upload request is answered with a status that is neither
    415, 413, 422 nor an error and with a JSON document, [upload_video]
    returns that document as it is, having printed the start and the
    success of the upload; the session and the clock are untouched. *)
Theorem upload_video_success w s s1 path t d p ch wt r doc :
  authenticated w s s1 ->
  readable w path = true ->
  respond w (requests s1) (upload_request (self s1) path t d p ch wt path) =
    Replied r ->
  status_code r <> 415 -> status_code r <> 413 -> status_code r <> 422 ->
  is_error_status (status_code r) = false ->
  json r = Some doc ->
  let out := upload_video w path t d p ch wt s in
  fst out = inr doc /\
  stdout (snd out) =
    stdout s1 ++ [Uploading (path_name path);
                  SuccessfullyUploaded (path_name path)] /\
  self (snd out) = self s1 /\
  slept (snd out) = slept s1.
Proof.
  intros Ha Hrd Hr H415 H413 H422 Hs Hj out. unfold out.
  rewrite (upload_video_run _ _ _ _ _ _ _ _ _ Ha Hrd), Hr.
  unfold upload_outcome.
  apply Z.eqb_neq in H415 as ->. apply Z.eqb_neq in H413 as ->.
  apply Z.eqb_neq in H422 as ->. rewrite Hs, Hj.
  split; [done|]. split; [|done]. norm_state. reflexivity.
Qed.

Lemma upload_video_success_witness :
  authenticated w_sample fresh (snd (login w_sample fresh)) /\
  fst (upload_video w_sample "videos/a.mp4" None None 1 None true fresh) =
    inr (VideoDoc 10 "a.mp4").
Proof.
  assert (authenticated w_sample fresh (snd (login w_sample fresh))) as Ha
    by (vm_compute; reflexivity).
  split; [exact Ha|].
  apply (upload_video_success w_sample fresh _ "videos/a.mp4" None None 1 None
           true (Build_Response 200 "OK" (Some (VideoDoc 10 "a.mp4")))
           (VideoDoc 10 "a.mp4") Ha);
    first [reflexivity | discriminate].
Defined.

(** X8. For the statuses 415, 413 and 422 [upload_video] prints nothing
    after the start of the upload: neither the failure line nor the text of
    the response body, which is lost to the caller (the error raised
    carries a fixed message only). *)
Theorem upload_mapped_status_drops_body w s s1 path t d p ch wt r :
  authenticated w s s1 ->
  readable w path = true ->
  respond w (requests s1) (upload_request (self s1) path t d p ch wt path) =
    Replied r ->
  status_code r = 415 \/ status_code r = 413 \/ status_code r = 422 ->
  let out := upload_video w path t d p ch wt s in
  stdout (snd out) = stdout s1 ++ [Uploading (path_name path)] /\
  exn_response <$> (match fst out with inl e => Some e | inr _ => None end) =
    Some None.
Proof.
  intros Ha Hrd Hr Hst out. unfold out.
  rewrite (upload_video_run _ _ _ _ _ _ _ _ _ Ha Hrd), Hr.
  unfold upload_outcome.
  destruct Hst as [-> | [-> | ->]]; simpl; done.
Qed.

Lemma upload_mapped_status_drops_body_witness :
  authenticated w_sample fresh (snd (login w_sample fresh)) /\
  stdout (snd (upload_video w_sample "videos/c.MKV" None None 1 None true
                            fresh)) =
  stdout (snd (login w_sample fresh)) ++ [Uploading "c.MKV"].
Proof.
  assert (authenticated w_sample fresh (snd (login w_sample fresh))) as Ha
    by (vm_compute; reflexivity).
  split; [exact Ha|].
  apply (upload_mapped_status_drops_body w_sample fresh _ "videos/c.MKV" None
           None 1 None true (Build_Response 413 "quota exceeded" None) Ha
           eq_refl eq_refl).
  right. left. reflexivity.
Defined.

(** X9. When the upload request gets no response (connection error,
    timeout), [upload_video] prints the failure, prints no server text, and
    raises the transport error again. *)
Theorem upload_transport_failure w s s1 path t d p ch wt :
  authenticated w s s1 ->
  readable w path = true ->
  respond w (requests s1) (upload_request (self s1) path t d p ch wt path) =
    Unreachable ->
  let out := upload_video w path t d p ch wt s in
  fst out = inl ConnectionError /\
  stdout (snd out) =
    stdout s1 ++ [Uploading (path_name path); UploadFailed ConnectionError].
Proof.
  intros Ha Hrd Hr out. unfold out.
  rewrite (upload_video_run _ _ _ _ _ _ _ _ _ Ha Hrd), Hr.
  unfold upload_outcome. split; [done|]. norm_state. reflexivity.
Qed.

Lemma upload_transport_failure_witness :
  authenticated w_unreachable signed_in signed_in /\
  fst (upload_video w_unreachable "videos/a.mp4" None None 1 None true
                    signed_in) = inl ConnectionError.
Proof.
  assert (authenticated w_unreachable signed_in signed_in) as Ha
    by reflexivity.
  split; [exact Ha|].
  apply (upload_transport_failure w_unreachable signed_in signed_in
           "videos/a.mp4" None None 1 None true Ha eq_refl eq_refl).
Defined.

(** X10. When the upload request is answered with a status that is no
    error but with a body that is not JSON, [upload_video] prints that the
    upload succeeded, then that it failed, and raises the decoding error:
    the caller gets no document for a video the service accepted. *)
Theorem upload_success_without_json w s s1 path t d p ch wt r :
  authenticated w s s1 ->
  readable w path = true ->
  respond w (requests s1) (upload_request (self s1) path t d p ch wt path) =
    Replied r ->
  status_code r <> 415 -> status_code r <> 413 -> status_code r <> 422 ->
  is_error_status (status_code r) = false ->
  json r = None ->
  let out := upload_video w path t d p ch wt s in
  fst out = inl JSONDecodeError /\
  stdout (snd out) =
    stdout s1 ++ [Uploading (path_name path);
                  SuccessfullyUploaded (path_name path);
                  UploadFailed JSONDecodeError].
Proof.
  intros Ha Hrd Hr H415 H413 H422 Hs Hj out. unfold out.
  rewrite (upload_video_run _ _ _ _ _ _ _ _ _ Ha Hrd), Hr.
  unfold upload_outcome.
  apply Z.eqb_neq in H415 as ->. apply Z.eqb_neq in H413 as ->.
  apply Z.eqb_neq in H422 as ->. rewrite Hs, Hj.
  split; [done|]. norm_state. reflexivity.
Qed.

Lemma upload_success_without_json_witness :
  authenticated w_html signed_in signed_in /\
  fst (upload_video w_html "videos/a.mp4" None None 1 None true signed_in) =
    inl JSONDecodeError.
Proof.
  assert (authenticated w_html signed_in signed_in) as Ha by reflexivity.
  split; [exact Ha|].
  apply (upload_success_without_json w_html signed_in signed_in
           "videos/a.mp4" None None 1 None true
           (Build_Response 200 "<html>" None) Ha);
    first [reflexivity | discriminate].
Defined.

(** X11. A file that cannot be opened makes [upload_video] raise the
    [OSError] of [open] before anything is printed or sent for the upload;
    the authentication of a session without token has been carried out by
    then, so such a call still costs at least one request. *)
Theorem upload_unreadable_file w s s1 path t d p ch wt :
  authenticated w s s1 ->
  readable w path = false ->
  upload_video w path t d p ch wt s = (inl (OSError path), s1) /\
  (truthy (token (self s)) = true -> s1 = s) /\
  (truthy (token (self s)) = false ->
   exists l, l <> [] /\ requests s1 = requests s ++ l /\
             forallb is_auth_request l = true).
Proof.
  intros Ha Hrd.
  split; [by apply upload_video_unreadable|].
  unfold authenticated in Ha. split; intros Ht; rewrite Ht in Ha; [done|].
  apply login_effects in Ha as (l & o & Hl & Hne & Hf & _). eauto.
Qed.

Lemma upload_unreadable_file_witness :
  authenticated w_locked fresh (snd (login w_locked fresh)) /\
  upload_video w_locked "videos/a.mp4" None None 1 None true fresh =
    (inl (OSError "videos/a.mp4"), snd (login w_locked fresh)).
Proof.
  assert (authenticated w_locked fresh (snd (login w_locked fresh))) as Ha
    by (vm_compute; reflexivity).
  split; [exact Ha|].
  apply (upload_unreadable_file w_locked fresh _ "videos/a.mp4" None None 1
           None true Ha eq_refl).
Defined.

(** X12. Past its opening authentication [upload_video] never changes the
    session and never sleeps, however it ends. *)
Theorem upload_video_keeps_session w s s1 path t d p ch wt :
  authenticated w s s1 ->
  self (snd (upload_video w path t d p ch wt s)) = self s1 /\
  slept (snd (upload_video w path t d p ch wt s)) = slept s.
Proof.
  intros Ha. destruct (authenticated_effects _ _ _ Ha) as [_ Hsl].
  destruct (readable w path) eqn:Hrd.
  - rewrite (upload_video_run _ _ _ _ _ _ _ _ _ Ha Hrd).
    by rewrite upload_outcome_self, upload_outcome_slept.
  - by rewrite (upload_video_unreadable _ _ _ _ _ _ _ _ _ Ha Hrd).
Qed.

Lemma upload_video_keeps_session_witness :
  authenticated w_broken signed_in signed_in /\
  self (snd (upload_video w_broken "videos/a.mp4" None None 1 None true
                          signed_in)) = self signed_in.
Proof.
  assert (authenticated w_broken signed_in signed_in) as Ha by reflexivity.
  split; [exact Ha|].
  apply (upload_video_keeps_session w_broken signed_in signed_in
           "videos/a.mp4" None None 1 None true Ha).
Defined.

(** X13. The upload request issued carries as name the title given, or,
    when none is given (an empty one counting as none), the file's stem:
    followed by the file's suffix it is the name of the file sent. *)
Theorem upload_title_defaults_to_stem w s s1 path t d p ch wt :
  authenticated w s s1 ->
  readable w path = true ->
  exists q dt f,
    requests (snd (upload_video w path t d p ch wt s)) = requests s1 ++ [q] /\
    payload q = Multipart dt f /\
    (forall title, t = Some title -> title <> "" -> data_name dt = title) /\
    (t = None \/ t = Some "" ->
     data_name dt +:+ path_suffix path = file_name f /\
     file_name f = path_name path).
Proof.
  intros Ha Hrd.
  eexists (upload_request (self s1) path t d p ch wt path), _, _.
  split.
  { rewrite (upload_video_requests _ _ _ _ _ _ _ _ _ Ha). by rewrite Hrd. }
  split; [reflexivity|]. cbn [data_name file_name]. split.
  - intros title -> Hne. simpl. by apply String.eqb_neq in Hne as ->.
  - intros [-> | ->]; simpl; (split; [apply path_stem_suffix|done]).
Qed.

Lemma upload_title_defaults_to_stem_witness :
  authenticated w_sample signed_in signed_in /\
  exists q dt f,
    requests (snd (upload_video w_sample "videos/clip.final.mp4" None None 1
                                None true signed_in)) =
      requests signed_in ++ [q] /\
    payload q = Multipart dt f /\
    data_name dt +:+ path_suffix "videos/clip.final.mp4" = file_name f.
Proof.
  assert (authenticated w_sample signed_in signed_in) as Ha by reflexivity.
  split; [exact Ha|].
  destruct (upload_title_defaults_to_stem w_sample signed_in signed_in
              "videos/clip.final.mp4" None None 1 None true Ha eq_refl)
    as (q & dt & f & Hq & Hp & _ & Hstem).
  exists q, dt, f. split; [exact Hq|]. split; [exact Hp|].
  apply Hstem. by left.
Defined.

(** ** [bulk_upload], its effects as a whole *)

Lemma bulk_upload_attempts w dir p ch s entries :
  listing w dir = Some entries ->
  bulk_upload w dir p ch s =
  (inr (successes (fst (attempts w (List.filter is_video entries) p ch s))),
   snd (attempts w (List.filter is_video entries) p ch s)).
Proof.
  intros Hdir. unfold bulk_upload, iterdir, bind. rewrite Hdir. unfold ret.
  by rewrite bulk_loop_attempts.
Qed.



(** X15. On a directory whose entries have ASCII names, none with a video
    extension, [bulk_upload] returns the empty list and does nothing at
    all: no authentication even on a session
    without token, no request, no print, no pause. *)
Theorem bulk_upload_without_videos w dir p ch s entries :
  listing w dir = Some entries ->
  ascii_names entries ->
  (forall file, file ∈ entries -> is_video file = false) ->
  bulk_upload w dir p ch s = (inr [], s).
Proof.
  intros Hdir _ Hnone. rewrite (bulk_upload_attempts _ _ _ _ _ _ Hdir).
  assert (List.filter is_video entries = []) as ->; [|done].
  clear Hdir. induction entries as [|f rest IH]; [done|].
  simpl. rewrite (Hnone f); [|by left]. apply IH.
  intros file Hin. apply Hnone. by right.
Qed.

Lemma bulk_upload_without_videos_witness :
  listing w_documents "docs" =
    Some ["docs/readme.txt"; "docs/.mp4"; "docs/notes"] /\
  bulk_upload w_documents "docs" 1 None fresh = (inr [], fresh).
Proof.
  split; [reflexivity|].
  apply (bulk_upload_without_videos w_documents "docs" 1 None fresh
           ["docs/readme.txt"; "docs/.mp4"; "docs/notes"] eq_refl).
  { vm_compute. reflexivity. }
  intros file Hin. repeat (apply elem_of_cons in Hin as [-> | Hin]);
    [reflexivity .. | by apply elem_of_nil in Hin].
Defined.

Lemma upload_video_slept w s path t d p ch wt :
  slept (snd (upload_video w path t d p ch wt s)) = slept s.
Proof.
  destruct (upload_video_cases w s path t d p ch wt)
    as [(e & s1 & Ht & Hl & ->) | [(s1 & Ha & Hrd & ->) | (s1 & Ha & Hrd & ->)]].
  - by apply login_effects in Hl as (l & o & _ & _ & _ & _ & _ & Hs).
  - by apply authenticated_effects in Ha as [_ Hs].
  - rewrite upload_outcome_slept. by apply authenticated_effects in Ha as [_ Hs].
Qed.

Lemma attempts_slept w files p ch s :
  slept (snd (attempts w files p ch s)) =
  slept s + 2 * Z.of_nat (length (successes (fst (attempts w files p ch s)))).
Proof.
  revert s. induction files as [|file rest IH]; intros s; simpl; [lia|].
  pose proof (upload_video_slept w s file None None p ch true) as Hs.
  destruct (upload_video w file None None p ch true s) as [o s1].
  simpl in Hs.
  specialize (IH (after_attempt file o s s1)).
  destruct (attempts w rest p ch _) as [os s']. simpl in *.
  rewrite IH. destruct o; simpl; lia.
Qed.

(** X16. On a listing of entries with ASCII names [bulk_upload] pauses 2
    seconds after each upload that succeeded and at no other time: the time slept during the call is twice the
    number of documents returned (no pause after a failure). *)
Theorem bulk_upload_sleeps_per_success w dir p ch s entries :
  listing w dir = Some entries ->
  ascii_names entries ->
  exists results,
    fst (bulk_upload w dir p ch s) = inr results /\
    slept (snd (bulk_upload w dir p ch s)) =
    slept s + 2 * Z.of_nat (length results).
Proof.
  intros Hdir _. rewrite (bulk_upload_attempts _ _ _ _ _ _ Hdir).
  eexists. split; [reflexivity|]. apply attempts_slept.
Qed.

Lemma bulk_upload_sleeps_per_success_witness :
  listing w_sample "videos" = Some sample_files /\
  slept (snd (bulk_upload w_sample "videos" 1 None fresh)) = 4.
Proof.
  split; [reflexivity|].
  destruct (bulk_upload_sleeps_per_success w_sample "videos" 1 None fresh
              sample_files eq_refl ltac:(vm_compute; reflexivity))
    as (results & Hr & Hs).
  rewrite Hs.
  assert (fst (bulk_upload w_sample "videos" 1 None fresh) =
          inr [VideoDoc 10 "a.mp4"; VideoDoc 10 "d.webm"]) as Hv
    by (vm_compute; reflexivity).
  rewrite Hv in Hr. injection Hr as <-. reflexivity.
Defined.

Lemma count_reports_app out1 out2 :
  count_reports (out1 ++ out2) = (count_reports out1 + count_reports out2)%nat.
Proof. unfold count_reports. by rewrite List.filter_app, length_app. Qed.

Lemma login_reports w s r s1 :
  login w s = (r, s1) -> count_reports (stdout s1) = count_reports (stdout s).
Proof.
  unfold login. run. simpl. intros H.
  repeat (case_match; simplify_eq; simpl in * ); try reflexivity.
  rewrite count_reports_app. unfold count_reports at 2. simpl. lia.
Qed.

Lemma authenticated_reports w s s1 :
  authenticated w s s1 -> count_reports (stdout s1) = count_reports (stdout s).
Proof.
  unfold authenticated. destruct (truthy (token (self s))).
  - by intros ->.
  - apply login_reports.
Qed.

Lemma upload_outcome_reports file path q reply s1 :
  count_reports (stdout (snd (upload_outcome file path q reply s1))) =
  count_reports (stdout s1).
Proof.
  unfold upload_outcome.
  repeat case_match; simpl; rewrite ?count_reports_app;
    unfold count_reports; simpl; lia.
Qed.

(** [upload_video] prints no per-file error report. *)
Lemma upload_video_reports w s path t d p ch wt :
  count_reports (stdout (snd (upload_video w path t d p ch wt s))) =
  count_reports (stdout s).
Proof.
  destruct (upload_video_cases w s path t d p ch wt)
    as [(e & s1 & Ht & Hl & ->) | [(s1 & Ha & Hrd & ->) | (s1 & Ha & Hrd & ->)]].
  - by apply login_reports in Hl.
  - by apply authenticated_reports in Ha.
  - rewrite upload_outcome_reports. simpl. by apply authenticated_reports in Ha.
Qed.

Lemma attempts_reports w files p ch s :
  (length (successes (fst (attempts w files p ch s))) +
   count_reports (stdout (snd (attempts w files p ch s))) =
   length files + count_reports (stdout s))%nat.
Proof.
  revert s. induction files as [|file rest IH]; intros s; simpl; [lia|].
  pose proof (upload_video_reports w s file None None p ch true) as Hs.
  destruct (upload_video w file None None p ch true s) as [o s1].
  simpl in Hs.
  specialize (IH (after_attempt file o s s1)).
  destruct (attempts w rest p ch _) as [os s']. simpl in *.
  destruct o; simpl in *; rewrite ?count_reports_app in IH;
    unfold count_reports in *; simpl in *; lia.
Qed.

(** X17. On a listing of entries with ASCII names, every video file of the
    directory is accounted for exactly once:
    the number of documents returned plus the number of error reports
    printed during the call is the number of entries with a video
    extension. *)
Theorem bulk_upload_accounts_for_every_video w dir p ch s entries :
  listing w dir = Some entries ->
  ascii_names entries ->
  exists results,
    fst (bulk_upload w dir p ch s) = inr results /\
    (length results + count_reports (stdout (snd (bulk_upload w dir p ch s))) =
     length (List.filter is_video entries) + count_reports (stdout s))%nat.
Proof.
  intros Hdir _. rewrite (bulk_upload_attempts _ _ _ _ _ _ Hdir).
  eexists. split; [reflexivity|]. apply attempts_reports.
Qed.

Lemma bulk_upload_accounts_for_every_video_witness :
  listing w_broken "videos" = Some sample_files /\
  exists results,
    fst (bulk_upload w_broken "videos" 1 None fresh) = inr results /\
    (length results +
     count_reports (stdout (snd (bulk_upload w_broken "videos" 1 None fresh)))
     = length (List.filter is_video sample_files) +
       count_reports (stdout fresh))%nat.
Proof.
  split; [reflexivity|].
  apply (bulk_upload_accounts_for_every_video w_broken "videos" 1 None fresh
           sample_files eq_refl).
  vm_compute. reflexivity.
Defined.

Lemma upload_video_signed_in w s path t d p ch wt :
  truthy (token (self s)) = true ->
  self (snd (upload_video w path t d p ch wt s)) = self s /\
  requests (snd (upload_video w path t d p ch wt s)) =
  requests s ++
  (if readable w path then [upload_request (self s) path t d p ch wt path]
   else []).
Proof.
  intros Ht. pose proof (authenticated_truthy w s Ht) as Ha.
  split; [|by apply upload_video_requests].
  destruct (readable w path) eqn:Hrd.
  - rewrite (upload_video_run _ _ _ _ _ _ _ _ _ Ha Hrd).
    by rewrite upload_outcome_self.
  - by rewrite (upload_video_unreadable _ _ _ _ _ _ _ _ _ Ha Hrd).
Qed.

Lemma attempts_signed_in w files p ch s :
  truthy (token (self s)) = true ->
  self (snd (attempts w files p ch s)) = self s /\
  requests (snd (attempts w files p ch s)) =
  requests s ++
  ((fun file => upload_request (self s) file None None p ch true file)
     <$> List.filter (readable w) files).
Proof.
  revert s. induction files as [|file rest IH]; intros s Ht; simpl.
  - by rewrite app_nil_r.
  - destruct (upload_video_signed_in w s file None None p ch true Ht)
      as [Hself Hreq].
    destruct (upload_video w file None None p ch true s) as [o s1].
    simpl in Hself, Hreq.
    destruct (IH (after_attempt file o s s1)) as [IHself IHreq].
    { destruct o; simpl; by rewrite Hself. }
    destruct (attempts w rest p ch _) as [os s']. simpl in *.
    assert (self (after_attempt file o s s1) = self s) as Hs2 by (by destruct o).
    assert (requests (after_attempt file o s s1) = requests s1) as Hr2 by (by destruct o).
    rewrite Hs2 in IHself, IHreq. rewrite Hr2 in IHreq.
    split; [done|]. rewrite IHreq, Hreq.
    destruct (readable w file); simpl; by rewrite <- app_assoc.
Qed.

(** X18. On a session that holds a token, and a listing of entries with
    ASCII names, [bulk_upload] never authenticates: the requests it issues are exactly the upload requests
    of the video files that can be opened, one each, in listing order, all
    with the token, channel choice and privacy of the call; and the
    session is the same afterwards. *)
Theorem bulk_upload_signed_in w dir p ch s entries :
  listing w dir = Some entries ->
  ascii_names entries ->
  truthy (token (self s)) = true ->
  self (snd (bulk_upload w dir p ch s)) = self s /\
  requests (snd (bulk_upload w dir p ch s)) =
  requests s ++
  ((fun file => upload_request (self s) file None None p ch true file)
     <$> List.filter (readable w) (List.filter is_video entries)).
Proof.
  intros Hdir _ Ht. rewrite (bulk_upload_attempts _ _ _ _ _ _ Hdir). simpl.
  by apply attempts_signed_in.
Qed.

Lemma bulk_upload_signed_in_witness :
  listing w_sample "videos" = Some sample_files /\
  truthy (token (self signed_in)) = true /\
  requests (snd (bulk_upload w_sample "videos" 1 None signed_in)) =
  [upload_request (self signed_in) "videos/a.mp4" None None 1 None true
                  "videos/a.mp4";
   upload_request (self signed_in) "videos/c.MKV" None None 1 None true
                  "videos/c.MKV";
   upload_request (self signed_in) "videos/d.webm" None None 1 None true
                  "videos/d.webm"].
Proof.
  split; [reflexivity|]. split; [reflexivity|].
  destruct (bulk_upload_signed_in w_sample "videos" 1 None signed_in
              sample_files eq_refl ltac:(vm_compute; reflexivity) eq_refl)
    as [_ Hreq].
  rewrite Hreq. reflexivity.
Defined.

Lemma login_unreachable w s :
  respond w (requests s) (client_request (self s)) = Unreachable ->
  login w s = (inl ConnectionError, add_request (client_request (self s)) s).
Proof. intros H. unfold login. run. simpl. by rewrite H. Qed.

Lemma attempts_unreachable w files p ch s :
  truthy (token (self s)) = false ->
  (forall history, respond w history (client_request (self s)) = Unreachable) ->
  fst (attempts w files p ch s) =
    (fun file => (file, inl ConnectionError)) <$> files /\
  self (snd (attempts w files p ch s)) = self s /\
  requests (snd (attempts w files p ch s)) =
    requests s ++ replicate (length files) (client_request (self s)) /\
  stdout (snd (attempts w files p ch s)) =
    stdout s ++
    ((fun file => ErrorUploading (path_name file) ConnectionError) <$> files).
Proof.
  revert s. induction files as [|file rest IH]; intros s Ht Hdown; simpl.
  - by rewrite !app_nil_r.
  - rewrite (upload_video_login_fails _ _ _ _ _ _ _ _ _ _ Ht
               (login_unreachable _ _ (Hdown _))).
    destruct (IH (add_output (ErrorUploading (path_name file) ConnectionError)
                    (add_request (client_request (self s)) s)))
      as (IHo & IHself & IHreq & IHout); [done..|].
    destruct (attempts w rest p ch _) as [os s']. simpl in *.
    rewrite IHo, IHself, IHreq, IHout, <- !app_assoc. done.
Qed.

(** X19. A failing authentication does not stop [bulk_upload]: on a
    session without token and a listing of entries with ASCII names, when the client-credential fetch never gets
    through, every video file starts a new authentication; the call
    issues one such fetch per video file and nothing else, prints one
    error report per file and returns the empty list. *)
Theorem bulk_upload_retries_login_per_file w dir p ch s entries :
  listing w dir = Some entries ->
  ascii_names entries ->
  truthy (token (self s)) = false ->
  (forall history, respond w history (client_request (self s)) = Unreachable) ->
  let videos := List.filter is_video entries in
  fst (bulk_upload w dir p ch s) = inr [] /\
  requests (snd (bulk_upload w dir p ch s)) =
    requests s ++ replicate (length videos) (client_request (self s)) /\
  stdout (snd (bulk_upload w dir p ch s)) =
    stdout s ++
    ((fun file => ErrorUploading (path_name file) ConnectionError) <$> videos).
Proof.
  intros Hdir _ Ht Hdown videos.
  rewrite (bulk_upload_attempts _ _ _ _ _ _ Hdir). simpl.
  destruct (attempts_unreachable w videos p ch s Ht Hdown)
    as (Ho & _ & Hreq & Hout).
  fold videos. rewrite Ho. split; [|done].
  f_equal. clear. induction videos as [|f rest IH]; [done|exact IH].
Qed.

Lemma bulk_upload_retries_login_per_file_witness :
  listing w_unreachable "videos" = Some sample_files /\
  truthy (token (self fresh)) = false /\
  requests (snd (bulk_upload w_unreachable "videos" 1 None fresh)) =
  [client_request (self fresh); client_request (self fresh);
   client_request (self fresh)].
Proof.
  split; [reflexivity|]. split; [reflexivity|].
  destruct (bulk_upload_retries_login_per_file w_unreachable "videos" 1 None
              fresh sample_files eq_refl ltac:(vm_compute; reflexivity)
              eq_refl (fun _ => eq_refl))
    as (_ & Hreq & _).
  rewrite Hreq. reflexivity.
Defined.

(** ** Sessions that [login] leaves half set up *)

(** X20. After a login that failed for want of channels on a session that
    had no default channel and an empty cache (a new one), the token is
    in place, and an upload on that session goes out at once, with that
    token and without any target channel, whatever channel name is
    given. *)
Theorem upload_after_no_channels_has_no_target w s cid csecret tok profile
    path t d p ch wt :
  auth_exchange w s cid csecret tok profile ->
  get_videoChannels profile = None \/ get_videoChannels profile = Some [] ->
  tok <> "" ->
  default_channel_id (self s) = None ->
  channels (self s) = ∅ ->
  readable w path = true ->
  exists s1 q dt f,
    login w s = (inl (Exception "No video channels found"), s1) /\
    requests (snd (upload_video w path t d p ch wt s1)) = requests s1 ++ [q] /\
    payload q = Multipart dt f /\
    data_channelId dt = None /\
    authorization q = Some ("Bearer " +:+ tok).
Proof.
  intros Hx Hnone Htok Hdef Hch Hrd.
  exists (token_stored s cid csecret tok).
  eexists (upload_request (self (token_stored s cid csecret tok))
                          path t d p ch wt path), _, _.
  split; [exact (login_no_channels _ _ _ _ _ _ Hx Hnone)|].
  split.
  { rewrite (upload_video_requests w _ (token_stored s cid csecret tok)).
    - by rewrite Hrd.
    - apply authenticated_truthy. simpl.
      by apply negb_true_iff, String.eqb_neq. }
  split; [reflexivity|]. split; [|done].
  cbn [data_channelId]. unfold select_channel. simpl. rewrite Hdef, Hch.
  destruct ch as [n|]; [|done]. rewrite lookup_empty.
  by destruct (truthy (Some n)).
Qed.

Lemma upload_after_no_channels_has_no_target_witness :
  auth_exchange w_no_channel fresh "client" "secret" "tok" (UserDoc (Some [])) /\
  exists s1 q dt f,
    login w_no_channel fresh =
      (inl (Exception "No video channels found"), s1) /\
    requests (snd (upload_video w_no_channel "videos/a.mp4" None None 1
                                (Some "main") true s1)) = requests s1 ++ [q] /\
    payload q = Multipart dt f /\
    data_channelId dt = None /\
    authorization q = Some ("Bearer " +:+ "tok").
Proof.
  split; [apply sample_exchange|].
  apply (upload_after_no_channels_has_no_target w_no_channel fresh "client"
           "secret" "tok" (UserDoc (Some [])) "videos/a.mp4" None None 1
           (Some "main") true).
  - apply sample_exchange.
  - right. reflexivity.
  - discriminate.
  - reflexivity.
  - reflexivity.
  - reflexivity.
Defined.

Lemma login_first_request w s r s1 :
  login w s = (r, s1) ->
  exists l, requests s1 = requests s ++ client_request (self s) :: l.
Proof.
  unfold login. run. simpl. intros H.
  repeat (case_match; simplify_eq; simpl in * );
    norm_state; eexists; reflexivity.
Qed.

(** X21. An empty access token is stored like any other, and the login
    succeeds; but the session then still counts as having no token, so the
    next upload authenticates again: its first request is a new
    client-credential fetch. *)
Theorem empty_token_authenticates_again w s cid csecret chans
    path t d p ch wt :
  auth_exchange w s cid csecret "" (UserDoc (Some chans)) ->
  chans <> [] ->
  exists s1 l,
    login w s = (inr tt, s1) /\
    token (self s1) = Some "" /\
    requests (snd (upload_video w path t d p ch wt s1)) =
      requests s1 ++ client_request (self s1) :: l.
Proof.
  intros Hx Hne. destruct chans as [|first others]; [done|].
  pose (s1 := logged_in s cid csecret "" (first :: others)).
  assert (truthy (token (self s1)) = false) as Ht by reflexivity.
  destruct (login w s1) as [r2 s2] eqn:Hl2.
  destruct (login_first_request _ _ _ _ Hl2) as (l2 & Hreq2).
  destruct r2 as [e | []].
  - exists s1, l2.
    split; [by apply (login_channels _ _ _ _ _ (UserDoc (Some (first :: others))))|].
    split; [done|].
    by rewrite (upload_video_login_fails _ _ _ _ _ _ _ _ _ _ Ht Hl2).
  - pose proof (authenticated_login _ _ _ Ht Hl2) as Ha.
    exists s1. eexists.
    split; [by apply (login_channels _ _ _ _ _ (UserDoc (Some (first :: others))))|].
    split; [done|].
    rewrite (upload_video_requests _ _ _ _ _ _ _ _ _ Ha), Hreq2.
    rewrite <- app_assoc. reflexivity.
Qed.

Lemma empty_token_authenticates_again_witness :
  two_channels <> [] /\
  exists s1 l,
    login w_empty_token fresh = (inr tt, s1) /\
    token (self s1) = Some "" /\
    requests (snd (upload_video w_empty_token "videos/a.mp4" None None 1 None
                                true s1)) =
      requests s1 ++ client_request (self s1) :: l.
Proof.
  split; [discriminate|].
  apply (empty_token_authenticates_again w_empty_token fresh "client" "secret"
           two_channels "videos/a.mp4" None None 1 None true).
  - by apply (AuthExchange _ _ _ _ _ _
                {| status_code := 200; text := "OK";
                   json := Some (OAuthClientDoc "client" "secret") |}
                {| status_code := 200; text := "OK";
                   json := Some (TokenDoc "") |}
                {| status_code := 200; text := "OK";
                   json := Some (UserDoc (Some two_channels)) |}).
  - discriminate.
Defined.

(** X22. When the client-credential fetch succeeds and the token exchange
    is answered with an error status (credentials refused), [login] raises
    the [HTTPError] of that response after these two requests: the profile
    is never fetched, nothing is printed, and the session is untouched (a
    token it held stays).  The form sent carries the client id and secret
    just fetched, the grant type [password] and the session's user name
    and password. *)
Theorem login_token_exchange_refused w s cid csecret r1 r2 :
  respond w (requests s) (client_request (self s)) = Replied r1 ->
  is_error_status (status_code r1) = false ->
  json r1 = Some (OAuthClientDoc cid csecret) ->
  respond w (requests s ++ [client_request (self s)])
            (token_request (self s) cid csecret) = Replied r2 ->
  is_error_status (status_code r2) = true ->
  login w s =
    (inl (HTTPError r2),
     {| self := self s;
        requests := requests s ++ [client_request (self s);
                                   token_request (self s) cid csecret];
        stdout := stdout s; open_files := open_files s; slept := slept s |}) /\
  payload (token_request (self s) cid csecret) =
    Form {| form_client_id := cid; form_client_secret := csecret;
            form_grant_type := "password";
            form_username := username (self s);
            form_password := password (self s) |}.
Proof.
  intros H1 S1 D1 H2 S2. split; [|reflexivity].
  unfold login. run. simpl. rewrite H1, S1, D1. simpl. rewrite H2, S2.
  norm_state. reflexivity.
Qed.

Lemma login_token_exchange_refused_witness :
  login w_wrong_password signed_in =
    (inl (HTTPError unauthorized),
     {| self := self signed_in;
        requests := requests signed_in ++
                    [client_request (self signed_in);
                     token_request (self signed_in) "client" "secret"];
        stdout := stdout signed_in; open_files := open_files signed_in;
        slept := slept signed_in |}).
Proof.
  apply (login_token_exchange_refused w_wrong_password signed_in "client"
           "secret" (Build_Response 200 "OK"
                       (Some (OAuthClientDoc "client" "secret")))
           unauthorized); reflexivity.
Defined.


